(** * review_toolkit: the subnet geography reports

    A shallow embedding of the two reporting scripts of the repository,

      - [generate_geo_summary.py], the terminal text report, and
      - [generate_subnet_map.py], the interactive HTML map,

    followed by the properties their specification states about them.

    Python values are modelled as the scripts use them: a [str] is a
    sequence of Unicode code points, a record field read from a
    [csv.DictReader] row is a [str] or [None], a [dict] keeps its keys in
    insertion order, and an exception is an explicit outcome. *)

From Stdlib Require Import NArith String Ascii DecimalString QArith.
From stdpp Require Import base decidable option list numbers sorting.

Local Open Scope N_scope.
Local Open Scope nat_scope.

(** ** The parts of the Python runtime the scripts rely on *)

Module Py.

(** A [str] is a sequence of code points. *)
Abbreviation str := (list N) (only parsing).

(** A literal of the source, for the ASCII part of a string. *)
Definition lit (s : string) : str := N_of_ascii <$> list_ascii_of_string s.

(** A field value: [None] or a [str]. *)
Abbreviation value := (option (list N)) (only parsing).

(** Truth value of a field in a condition ([if v], [v and ...]). *)
Definition truthy (v : value) : bool :=
  match v with
  | Some (_ :: _) => true
  | _ => false
  end.

(** [f"{v}"]: how an f-string renders a field. *)
Definition fmt (v : value) : str :=
  match v with
  | Some s => s
  | None => lit "None"
  end.

(** [str.isspace] on one code point: the characters [str.strip] removes. *)
Definition isspace (c : N) : bool :=
  (((0x09 <=? c) && (c <=? 0x0D)) || ((0x1C <=? c) && (c <=? 0x20))
   || (c =? 0x85) || (c =? 0xA0) || (c =? 0x1680)
   || ((0x2000 <=? c) && (c <=? 0x200A))
   || (c =? 0x2028) || (c =? 0x2029) || (c =? 0x202F) || (c =? 0x205F)
   || (c =? 0x3000))%N.

Fixpoint lstrip (s : str) : str :=
  match s with
  | c :: s' => if isspace c then lstrip s' else s
  | [] => []
  end.

Definition rstrip (s : str) : str := reverse (lstrip (reverse s)).

(** [s.strip()] *)
Definition strip (s : str) : str := rstrip (lstrip s).

(** [s.split(sep)] for a one-character separator: never an empty list. *)
Fixpoint split (sep : N) (s : str) : list str :=
  match s with
  | [] => [[]]
  | c :: s' =>
      if (c =? sep)%N then [] :: split sep s'
      else match split sep s' with
           | p :: ps => (c :: p) :: ps
           | [] => [[c]]
           end
  end.

(** [sep.join(parts)] *)
Fixpoint join (sep : str) (parts : list str) : str :=
  match parts with
  | [] => []
  | [p] => p
  | p :: ps => p ++ sep ++ join sep ps
  end.

(** [str(n)] for a count. *)
Definition str_of_nat (n : nat) : str :=
  lit (NilZero.string_of_uint (Nat.to_uint n)).

(** [c * n] for a one-character string. *)
Definition repeat_char (c : N) (n : nat) : str := replicate n c.

(** [s < t] on strings: lexicographic on code points. *)
Fixpoint str_ltb (s t : str) : bool :=
  match s, t with
  | _, [] => false
  | [], _ :: _ => true
  | a :: s', b :: t' => (a <? b)%N || ((a =? b)%N && str_ltb s' t')
  end.

(** *** Exceptions *)

Inductive exn := TypeError | AttributeError | IndexError.

Inductive outcome (A : Type) :=
  | Returned (a : A)
  | Raised (e : exn).
Arguments Returned {A} a.
Arguments Raised {A} e.

#[global] Instance outcome_ret : MRet outcome := λ A a, Returned a.
#[global] Instance outcome_bind : MBind outcome := λ A B f m,
  match m with
  | Returned a => f a
  | Raised e => Raised e
  end.

(** [l[i]] for [0 <= i] *)
Definition item {A} (l : list A) (i : nat) : outcome A :=
  match l !! i with
  | Some x => Returned x
  | None => Raised IndexError
  end.

(** [str(e)] *)
Definition exn_message (e : exn) : string :=
  match e with
  | TypeError => "'NoneType' object is not subscriptable"
  | AttributeError => "'NoneType' object has no attribute 'strip'"
  | IndexError => "list index out of range"
  end.

(** A [for] loop whose body may raise: the first exception ends the loop. *)
Fixpoint for_each {A S} (body : S → A → outcome S) (xs : list A) (s : S)
  : outcome S :=
  match xs with
  | [] => Returned s
  | x :: xs' => s' ← body s x; for_each body xs' s'
  end.

(** *** Dictionaries

    A [dict] iterates in insertion order; assignment to a key that is
    present keeps the key's place. *)

Section dict.
Context {K V : Type} `{EqDecision K}.

(** [d.get(k)] *)
Fixpoint dict_get (d : list (K * V)) (k : K) : option V :=
  match d with
  | [] => None
  | (k', v) :: d' => if decide (k = k') then Some v else dict_get d' k
  end.

(** [d[k] = v] *)
Fixpoint dict_set (d : list (K * V)) (k : K) (v : V) : list (K * V) :=
  match d with
  | [] => [(k, v)]
  | (k', v') :: d' =>
      if decide (k = k') then (k', v) :: d' else (k', v') :: dict_set d' k v
  end.
End dict.

Section defaultdict.
Context {K V : Type} `{EqDecision K}.

(** [d[k].append(v)] on a [defaultdict(list)] *)
Fixpoint dict_append (d : list (K * list V)) (k : K) (v : V)
  : list (K * list V) :=
  match d with
  | [] => [(k, [v])]
  | (k', vs) :: d' =>
      if decide (k = k') then (k', vs ++ [v]) :: d'
      else (k', vs) :: dict_append d' k v
  end.
End defaultdict.

Section counter.
Context {K : Type} `{EqDecision K}.

(** [c[k] += 1] on a [Counter] *)
Fixpoint counter_incr (c : list (K * nat)) (k : K) : list (K * nat) :=
  match c with
  | [] => [(k, 1)]
  | (k', n) :: c' =>
      if decide (k = k') then (k', S n) :: c' else (k', n) :: counter_incr c' k
  end.

(** [Counter(iterable)] *)
Definition Counter (ks : list K) : list (K * nat) :=
  fold_left counter_incr ks [].
End counter.

(** *** [sorted]

    [sorted] is stable: elements that compare equal keep their input
    order, also under [reverse=True].  [before y x] says that [y] sorts
    strictly before [x]. *)

Section sorted.
Context {A : Type} (before : A → A → bool).

Fixpoint sorted_insert (x : A) (l : list A) : list A :=
  match l with
  | [] => [x]
  | y :: l' => if before y x then y :: sorted_insert x l' else x :: y :: l'
  end.

Fixpoint sorted (l : list A) : list A :=
  match l with
  | [] => []
  | x :: l' => sorted_insert x (sorted l')
  end.
End sorted.

End Py.

Import Py.

(** ** [csv.DictReader]

    The tokenizer [csv.reader] is taken as given: a file is the sequence
    of its rows, each a list of fields, the first row being the header.
    [DictReader] skips blank rows (which the tokenizer yields as [[]]),
    pairs the fields with the header and fills the fields a short row
    lacks with [restval], which is [None]. *)

Module Csv.

Definition DictReader_row (fieldnames : list str) (r : list str)
  : list (str * value) :=
  let d := fold_left (λ d kv, dict_set d kv.1 (Some kv.2)) (zip fieldnames r) [] in
  fold_left (λ d k, dict_set d k None) (drop (length r) fieldnames) d.

Definition DictReader (csv_file : list (list str)) : list (list (str * value)) :=
  match csv_file with
  | [] => []
  | fieldnames :: rows =>
      DictReader_row fieldnames <$> filter (λ r, r ≠ []) rows
  end.

(** [row.get(k, dflt)]: the default only replaces an absent key. *)
Definition get (row : list (str * value)) (k : string) (dflt : string) : value :=
  default (Some (lit dflt)) (dict_get row (lit k)).

End Csv.

(** ** generate_geo_summary.py *)

Module GeoSummary.

Record node := Node {
  node_id : value;
  dc_id : value;
  dc_owner : value;
  dc_region : value;
  change_type : value;
  constraint_violation : value;
  reward_region : value
}.

Definition read_subnet_data (csv_file : list (list str)) : list node :=
  (λ row,
     {| node_id := Csv.get row "node_id" "";
        dc_id := Csv.get row "node_operator_dc" "";
        dc_owner := Csv.get row "dc_owner" "";
        dc_region := Csv.get row "dc_region" "";
        change_type := Csv.get row "change_type" "UNCHANGED";
        constraint_violation := Csv.get row "constraint_violation" "";
        reward_region := Csv.get row "reward_region" "" |})
  <$> Csv.DictReader csv_file.

Definition comma : N := 44%N.

(** Lines 43-52: the region parse. *)
Definition parse_region (dc_region : value) : outcome (value * str * str) :=
  match dc_region with
  | Some s =>
      if truthy dc_region && bool_decide (comma ∈ s) then
        let parts := strip <$> split comma s in
        if bool_decide (3 ≤ length parts) then
          p0 ← item parts 0; p1 ← item parts 1; p2 ← item parts 2;
          mret (Some p0, p1, p2)
        else if bool_decide (length parts = 2) then
          p0 ← item parts 0; p1 ← item parts 1;
          mret (Some p0, p1, [])
        else
          p0 ← item parts 0;
          mret (Some p0, [], [])
      else Returned (dc_region, [], [])
  | None => Returned (dc_region, [], [])
  end.

Record node_info := NodeInfo {
  info_node_id : str;
  info_dc_id : value;
  info_dc_owner : value;
  info_change_type : value;
  info_violations : value;
  info_city : str
}.

(** [node['node_id'][:20] + '...']: [None] is not subscriptable. *)
Definition truncate_id (v : value) : outcome str :=
  match v with
  | Some s => Returned (take 20 s ++ lit "...")
  | None => Raised TypeError
  end.

Definition groups : Type :=
  list (str * list node_info) * list (str * list node_info)
  * list (value * list node_info).

Definition analyze_node (st : groups) (n : node) : outcome groups :=
  let '(regions, countries, continents) := st in
  '(continent, country, city) ← parse_region (dc_region n);
  short_id ← truncate_id (node_id n);
  let info :=
    {| info_node_id := short_id;
       info_dc_id := dc_id n;
       info_dc_owner := dc_owner n;
       info_change_type := change_type n;
       info_violations := constraint_violation n;
       info_city := city |} in
  mret (dict_append regions (fmt continent ++ lit "," ++ country) info,
        dict_append countries country info,
        dict_append continents continent info).

Definition analyze_geographic_distribution (nodes : list node) : outcome groups :=
  for_each analyze_node nodes ([], [], []).

(** The terminal markers. *)
Definition green : str := [0x1F7E2%N].
Definition red : str := [0x1F534%N].
Definition blue : str := [0x1F535%N].
Definition yellow : str := [0x1F7E1%N].
Definition neutral : str := [0x26AA%N].

Definition colors : list (value * str) :=
  [ (Some (lit "ADDED"), green);
    (Some (lit "REMOVED"), red);
    (Some (lit "UNCHANGED"), blue);
    (Some (lit "VIOLATION"), yellow) ].

(** [colors.get(change_type, neutral)] *)
Definition icon (change_type : value) : str :=
  default neutral (dict_get colors change_type).

Definition sentinels : list value :=
  [Some (lit "NO_VIOLATIONS"); Some (lit "REMOVED_NODE")].

(** Lines 91-92. *)
Definition violation_count (nodes : list node) : nat :=
  length (filter (λ n, truthy (constraint_violation n)
                       && bool_decide (constraint_violation n ∉ sentinels)) nodes).

(** Lines 110-111. *)
Definition violation_nodes (country_nodes : list node_info) : list node_info :=
  filter (λ n, truthy (info_violations n)
               && bool_decide (info_violations n ∉ sentinels)) country_nodes.

(** Lines 148-149. *)
Definition violation_marker (n : node_info) : str :=
  if truthy (info_violations n) && bool_decide (info_violations n ∉ sentinels)
  then [32; 0x26A0; 0xFE0F; 32]%N else [].

(** *** The report, one [print] call per element *)

Definition rule : str := repeat_char 61%N 80.

Definition header_lines (nodes : list node) (subnet_id : str) : list str :=
  [ rule; [0x1F30D%N] ++ lit " GEOGRAPHIC DISTRIBUTION ANALYSIS"; rule ]
  ++ (if truthy (Some subnet_id) then [lit "Subnet: " ++ subnet_id] else [])
  ++ [ lit "Total Nodes: " ++ str_of_nat (length nodes); [] ].

(** Lines 89-100. *)
Definition change_line (entry : value * nat) : str :=
  lit "  " ++ icon entry.1 ++ lit " " ++ fmt entry.1 ++ lit ": "
  ++ str_of_nat entry.2 ++ lit " nodes".

Definition change_summary_lines (nodes : list node) : list str :=
  let change_counts := Counter (change_type <$> nodes) in
  [ [0x1F4CA%N] ++ lit " CHANGE SUMMARY:" ]
  ++ (change_line <$> change_counts)
  ++ (if bool_decide (0 < violation_count nodes)
      then [ lit "  " ++ yellow ++ lit " VIOLATIONS: "
             ++ str_of_nat (violation_count nodes) ++ lit " nodes" ]
      else [])
  ++ [ [] ].

(** Lines 118-119: one item of the parenthetical breakdown. *)
Definition country_detail (entry : value * nat) : str :=
  icon entry.1 ++ str_of_nat entry.2.

(** Lines 104-124: one entry [(country, len(country_nodes), summary)]. *)
Definition country_entry (country : str) (country_nodes : list node_info)
  : str * nat * str :=
  let change_breakdown := Counter (info_change_type <$> country_nodes) in
  let violating := violation_nodes country_nodes in
  let summary :=
    lit "  " ++ country ++ lit ": " ++ str_of_nat (length country_nodes)
    ++ lit " nodes" in
  let summary :=
    if bool_decide (1 < length change_breakdown) || bool_decide (violating ≠ [])
    then
      let details :=
        (country_detail <$> filter (λ entry, 0 < entry.2) change_breakdown)
        ++ (if bool_decide (violating ≠ [])
            then [ yellow ++ str_of_nat (length violating) ++ lit " violations" ]
            else []) in
      summary ++ lit " (" ++ join (lit ", ") details ++ lit ")"
    else summary in
  (country, length country_nodes, summary).

Definition country_summary (countries : list (str * list node_info))
  : list (str * nat * str) :=
  (λ kv, country_entry kv.1 kv.2)
  <$> filter (λ kv : str * list node_info, truthy (Some kv.1)) countries.

(** Line 127: [sorted(country_summary, key=lambda x: x[1], reverse=True)]. *)
Definition sorted_country_summary (countries : list (str * list node_info))
  : list (str * nat * str) :=
  sorted (λ y x : str * nat * str, bool_decide (x.1.2 < y.1.2))
         (country_summary countries).

Definition country_lines (countries : list (str * list node_info)) : list str :=
  [ [0x1F30E%N] ++ lit " COUNTRY DISTRIBUTION:" ]
  ++ ((λ e : str * nat * str, e.2) <$> sorted_country_summary countries)
  ++ [ [] ].

(** [sorted(d.items())] for string keys: the keys of a dict are distinct,
    so the groups themselves are never compared. *)
Definition sorted_items {V} (d : list (str * V)) : list (str * V) :=
  sorted (λ y x : str * V, str_ltb y.1 x.1) d.

(** Lines 146-153. *)
Definition node_lines (n : node_info) : list str :=
  let city_info :=
    if truthy (Some (info_city n)) then lit " (" ++ info_city n ++ lit ")" else [] in
  [ lit "      " ++ icon (info_change_type n) ++ lit " " ++ info_node_id n
    ++ city_info ++ violation_marker n ]
  ++ (if truthy (Some (violation_marker n))
      then [ lit "         " ++ [0x2514; 0x2500]%N ++ lit " Violations: "
             ++ fmt (info_violations n) ]
      else []).

Definition dc_lines (group : str * list node_info) : list str :=
  [ lit "    " ++ [0x1F3E2%N] ++ lit " " ++ group.1 ++ lit ":" ]
  ++ concat (node_lines <$> group.2).

(** Lines 133-153. *)
Definition region_lines (entry : str * list node_info) : list str :=
  let '(region, region_nodes) := entry in
  if negb (truthy (Some region)) || bool_decide (region = lit ",") then []
  else
    let dc_groups :=
      fold_left
        (λ d n, dict_append d
                  (fmt (info_dc_id n) ++ lit " (" ++ fmt (info_dc_owner n) ++ lit ")")
                  n)
        region_nodes [] in
    [ [10%N] ++ lit "  " ++ [0x1F4CD%N] ++ lit " " ++ region ++ lit " ("
      ++ str_of_nat (length region_nodes) ++ lit " nodes):" ]
    ++ concat (dc_lines <$> sorted_items dc_groups).

Definition regional_lines (regions : list (str * list node_info)) : list str :=
  [ [0x1F3D9; 0xFE0F]%N ++ lit "  DETAILED REGIONAL BREAKDOWN:" ]
  ++ concat (region_lines <$> sorted_items regions).

(** Lines 161-170: the two structural groupings, filled by one loop. *)
Definition constraint_groups (nodes : list node)
  : list (value * list node) * list (value * list node) :=
  fold_left
    (λ st n,
       if bool_decide (change_type n = Some (lit "REMOVED")) then st
       else (dict_append st.1 (dc_id n) n, dict_append st.2 (dc_owner n) n))
    nodes ([], []).

Definition datacenters (nodes : list node) := (constraint_groups nodes).1.
Definition owners (nodes : list node) := (constraint_groups nodes).2.

(** Lines 173-174. *)
Definition dc_violations (nodes : list node) : list (value * list node) :=
  filter (λ kv, 1 < length kv.2) (datacenters nodes).
Definition owner_violations (nodes : list node) : list (value * list node) :=
  filter (λ kv, 1 < length kv.2) (owners nodes).

Definition warning_sign : str := [0x26A0; 0xFE0F]%N.

Definition violation_group_lines (group : value * list node) : list str :=
  [ lit "  " ++ warning_sign ++ lit "  " ++ fmt group.1 ++ lit ": "
    ++ str_of_nat (length group.2) ++ lit " nodes" ]
  ++ ((λ n, lit "    " ++ icon (change_type n) ++ lit " " ++ fmt (node_id n))
        <$> group.2).

(** Lines 156-197. *)
Definition constraint_lines (nodes : list node) : list str :=
  [ [10%N] ++ rule; [0x1F6A8%N] ++ lit " CONSTRAINT ANALYSIS:"; rule ]
  ++ (if bool_decide (dc_violations nodes ≠ [])
      then [ [0x1F3E2%N] ++ lit " DATACENTER CONSTRAINT VIOLATIONS:" ]
           ++ concat (violation_group_lines <$> dc_violations nodes) ++ [ [] ]
      else [])
  ++ (if bool_decide (owner_violations nodes ≠ [])
      then [ [0x1F3ED%N] ++ lit " DATACENTER OWNER CONSTRAINT VIOLATIONS:" ]
           ++ concat (violation_group_lines <$> owner_violations nodes) ++ [ [] ]
      else [])
  ++ (if bool_decide (dc_violations nodes = [])
         && bool_decide (owner_violations nodes = [])
      then [ [0x2705%N]
             ++ lit " No obvious datacenter or owner constraint violations detected";
             lit "   (Note: Provider constraint checking requires full audit data)";
             [] ]
      else []).

Definition footer_lines : list str :=
  [ rule;
    [0x1F4A1%N] ++ lit " TIP: For full interactive geographic visualization,";
    lit "   open subnet_map.html in your browser";
    rule ].

(** The whole report, given the groupings of lines 31-67. *)
Definition report (nodes : list node) (subnet_id : str) (g : groups) : list str :=
  let '(regions, countries, continents) := g in
  header_lines nodes subnet_id
  ++ change_summary_lines nodes
  ++ country_lines countries
  ++ regional_lines regions
  ++ constraint_lines nodes
  ++ footer_lines.

(** [print_geographic_summary]: what was printed, and how the call ended.
    The groupings are computed before the first [print]. *)
Definition print_geographic_summary (nodes : list node) (subnet_id : str)
  : list str * outcome () :=
  match analyze_geographic_distribution nodes with
  | Raised e => ([], Raised e)
  | Returned g => (report nodes subnet_id g, Returned ())
  end.

(** [main]: [input] is [None] when the path does not exist.  The result
    is the printed text and the exit status, or the exception that ended
    the process. *)
Definition main (input_path : str) (input : option (list (list str)))
    (subnet_id : str) : list str * outcome nat :=
  match input with
  | None =>
      ([ lit "Error: Input file " ++ input_path ++ lit " not found" ], Returned 1)
  | Some csv_file =>
      let nodes := read_subnet_data csv_file in
      if bool_decide (nodes = []) then
        ([ lit "No nodes found in input file" ], Returned 1)
      else
        match print_geographic_summary nodes subnet_id with
        | (out, Returned _) => (out, Returned 0)
        | (out, Raised e) => (out, Raised e)
        end
  end.

End GeoSummary.

(** ** Files, and how a run ends

    What the file system answers is not the program's.  The input is
    missing, or it is read to its end, or [open] or a later read raises
    ([OSError], [UnicodeDecodeError], [csv.Error]) after some rows;
    writing a file stores the text, or [open] raises and the path is left
    as it was, or [open] succeeds and the write or the close raises,
    which leaves the file cut short.  A run starts from the parsed
    arguments, and standard output is taken to accept every line. *)

Module Process.

Inductive input_file :=
  | Missing
  | Readable (csv_file : list (list str))
  | Unreadable (rows_read : list (list str)).

Inductive write_result := Stored | NotOpened | Cut.

(** The uncaught error that ends a run: an exception of the program's
    own statements, or one of reading the input, of writing the output or
    of [Path.absolute]. *)
Inductive failure :=
  | Exception (e : exn)
  | ReadFailed
  | WriteFailed
  | AbsoluteFailed.

(** [exit(main())]: [main] returns a status, which [exit] hands to the
    system, or an error leaves [main] uncaught, and the interpreter
    reports it with a status of its own. *)
Inductive ending :=
  | Exit (status : nat)
  | Uncaught (f : failure).

Definition ending_of (r : outcome nat) : ending :=
  match r with
  | Returned status => Exit status
  | Raised e => Uncaught (Exception e)
  end.

End Process.

(** [main] of generate_geo_summary.py on a file, from the parsed
    arguments (lines 213-227): the file is read in full by
    [read_subnet_data] before anything is printed, so a read that raises
    leaves no output. *)

Module GeoSummaryProcess.

Definition main (input_path : str) (input : Process.input_file) (subnet_id : str)
  : list str * Process.ending :=
  match input with
  | Process.Missing =>
      let run := GeoSummary.main input_path None subnet_id in
      (run.1, Process.ending_of run.2)
  | Process.Readable csv_file =>
      let run := GeoSummary.main input_path (Some csv_file) subnet_id in
      (run.1, Process.ending_of run.2)
  | Process.Unreadable _ => ([], Process.Uncaught Process.ReadFailed)
  end.

End GeoSummaryProcess.

(** ** generate_subnet_map.py

    [float] is the interpreter's: the type of its values and the parse
    [float(s)] of a string are parameters, [None] standing for the
    [ValueError] of a string that is not a number. *)

Module SubnetMap.

Section with_float.
Context {float : Type}.
Variable py_float : str → option float.

Record node_data := NodeData {
  node_id : value;
  node_operator_id : value;
  node_provider_id : value;
  dc_id : value;
  dc_owner : value;
  dc_region : value;
  country : str;
  city : str;
  change_type : value;
  constraint_violation : value;
  reward_region : value;
  reward_xdr : value;
  latitude : option float;
  longitude : option float
}.

Definition comma : N := 44%N.

(** Lines 22-29. *)
Definition parse_region (dc_region : value) : outcome (str * str) :=
  match dc_region with
  | Some s =>
      if truthy dc_region && bool_decide (comma ∈ s) then
        let region_parts := split comma s in
        country ← (if bool_decide (1 < length region_parts)
                   then item region_parts 1 else Returned []);
        city ← (if bool_decide (2 < length region_parts)
                then item region_parts 2 else Returned []);
        mret (country, city)
      else Returned ([], [])
  | None => Returned ([], [])
  end.

(** [row.get(k, '').strip()]: [None] has no [strip]. *)
Definition stripped (v : value) : outcome str :=
  match v with
  | Some s => Returned (strip s)
  | None => Raised AttributeError
  end.

(** Lines 35-48, for one of the two coordinates: the [ValueError] of
    [float] is passed over and leaves the coordinate [None]. *)
Definition coordinate (coord_str : str) : option float :=
  if truthy (Some coord_str) && bool_decide (coord_str ≠ lit "None")
  then py_float coord_str
  else None.

(** Lines 32-48: from the column of the row to the coordinate. *)
Definition read_coordinate (raw : value) : outcome (option float) :=
  coord_str ← stripped raw; mret (coordinate coord_str).

(** Lines 20-66: the body of the [try]. *)
Definition read_row (row : list (str * value)) : outcome node_data :=
  let dc_region := Csv.get row "dc_region" "" in
  '(country, city) ← parse_region dc_region;
  lat_str ← stripped (Csv.get row "gps_latitude" "");
  lon_str ← stripped (Csv.get row "gps_longitude" "");
  mret {| node_id := Csv.get row "node_id" "";
          node_operator_id := Csv.get row "node_operator_id" "";
          node_provider_id := Csv.get row "node_provider_id" "";
          dc_id := Csv.get row "node_operator_dc" "";
          dc_owner := Csv.get row "dc_owner" "";
          dc_region := dc_region;
          country := country;
          city := city;
          change_type := Csv.get row "change_type" "UNCHANGED";
          constraint_violation := Csv.get row "constraint_violation" "";
          reward_region := Csv.get row "reward_region" "";
          reward_xdr := Csv.get row "reward_xdr" "0";
          latitude := coordinate lat_str;
          longitude := coordinate lon_str |}.

(** [read_subnet_data]: the warnings printed and the nodes kept; a row
    whose processing raises is reported and skipped. *)
Definition read_subnet_data (csv_file : list (list str))
  : list str * list node_data :=
  fold_left
    (λ st row,
       match read_row row with
       | Returned n => (st.1, st.2 ++ [n])
       | Raised e =>
           (st.1 ++ [ lit "Warning: Could not process node "
                      ++ fmt (Csv.get row "node_id" "unknown") ++ lit ": "
                      ++ lit (exn_message e) ],
            st.2)
       end)
    (Csv.DictReader csv_file) ([], []).

(** The document: the fixed template with the values substituted into
    it, in the order of the template.  [marker_data] is the list handed
    to [json.dumps]. *)
Record html_document := HtmlDocument {
  panel_subnet_id : str;
  panel_total : nat;
  panel_added : nat;
  panel_removed : nat;
  panel_unchanged : nat;
  panel_violations : nat;
  marker_data : list node_data
}.

Definition sentinels : list value :=
  [Some (lit "NO_VIOLATIONS"); Some (lit "REMOVED_NODE")].

(** Lines 77-198. *)
Definition generate_html_map (nodes : list node_data) (subnet_id : str)
  : html_document :=
  let valid_nodes :=
    filter (λ n, latitude n ≠ None ∧ longitude n ≠ None) nodes in
  {| panel_subnet_id := take 40 subnet_id;
     panel_total := length nodes;
     panel_added :=
       length (filter (λ n, change_type n = Some (lit "ADDED")) nodes);
     panel_removed :=
       length (filter (λ n, change_type n = Some (lit "REMOVED")) nodes);
     panel_unchanged :=
       length (filter (λ n, change_type n = Some (lit "UNCHANGED")) nodes);
     panel_violations :=
       length (filter (λ n, truthy (constraint_violation n)
                            && bool_decide (constraint_violation n ∉ sentinels))
                      nodes);
     marker_data := valid_nodes |}.

End with_float.

Arguments node_data : clear implicits.
Arguments html_document : clear implicits.

(** A reading of plain decimal literals ([-12.75], [40], [.5]) as exact
    fractions: one possible [py_float], with which the closed examples
    below are run. *)
Definition digit (c : N) : option N :=
  if ((48 <=? c) && (c <=? 57))%N then Some (c - 48)%N else None.

Fixpoint digits (acc : N) (s : str) : option N :=
  match s with
  | [] => Some acc
  | c :: s' => d ← digit c; digits (10 * acc + d)%N s'
  end.

Definition unsigned_decimal (s : str) : option Q :=
  match split 46%N s with
  | [whole] =>
      if bool_decide (whole = []) then None
      else n ← digits 0 whole; Some (Z.of_N n # 1)
  | [whole; frac] =>
      if bool_decide (whole = [] ∧ frac = []) then None
      else n ← digits 0 (whole ++ frac);
           Some (Qred (Z.of_N n # Pos.of_nat (10 ^ length frac)))
  | _ => None
  end.

Definition decimal (s : str) : option Q :=
  match s with
  | 45%N :: s' => Qopp <$> unsigned_decimal s'
  | 43%N :: s' => unsigned_decimal s'
  | _ => unsigned_decimal s
  end.

(** *** The script of the page

    The marker data reach the script through [json.dumps]: a [None]
    field is [null] there, a [str] field a string.  [null] and the empty
    string are falsy, [!==] and the [case] labels compare strings
    exactly. *)

Section script.
Context {float : Type}.

(** Lines 81-86: [color_scheme], whose entries the f-string writes into
    the script. *)
Definition color_added : str := lit "#28a745".
Definition color_removed : str := lit "#dc3545".
Definition color_unchanged : str := lit "#007bff".
Definition color_violation : str := lit "#ffc107".

(** Lines 201-214. *)
Definition getNodeColor (node : node_data float) : str :=
  if truthy (constraint_violation node)
     && bool_decide (constraint_violation node ≠ Some (lit "NO_VIOLATIONS"))
     && bool_decide (constraint_violation node ≠ Some (lit "REMOVED_NODE"))
  then color_violation
  else if bool_decide (change_type node = Some (lit "ADDED")) then color_added
  else if bool_decide (change_type node = Some (lit "REMOVED")) then color_removed
  else color_unchanged.

(** Line 219. *)
Definition marker_radius (node : node_data float) : nat :=
  if bool_decide (change_type node = Some (lit "REMOVED")) then 6 else 8.

(** Line 220, in tenths. *)
Definition marker_opacity_tenths (node : node_data float) : nat :=
  if bool_decide (change_type node = Some (lit "REMOVED")) then 6 else 9.

(** Lines 232-266: the template literal of the popup.  It calls
    [substring] on [node_id], [node_operator_id] and [node_provider_id],
    which on [null] is a TypeError that ends [forEach]; the other fields
    are only interpolated.  Of the text, what is kept is whether it
    carries the violation block of lines 259-264. *)
Definition popupContent (node : node_data float) : outcome bool :=
  match node_id node, node_operator_id node, node_provider_id node with
  | Some _, Some _, Some _ =>
      Returned (truthy (constraint_violation node)
                && bool_decide (constraint_violation node ≠ Some (lit "NO_VIOLATIONS"))
                && bool_decide (constraint_violation node ≠ Some (lit "REMOVED_NODE")))
  | _, _, _ => Raised TypeError
  end.

End script.

(** *** [main]

    [absolute] renders [Path(p).absolute()], which depends on the working
    directory of the process and raises when there is none; [write_file]
    is how writing a text to a path ends. *)

Section entry_point.
Context {float : Type}.
Variable py_float : str → option float.
Variable absolute : str → option str.
Variable write_file : str → html_document float → Process.write_result.

(** What a run leaves behind: the lines printed and the files touched,
    each with the document it holds, [None] for a file cut short. *)
Record effects := Effects {
  printed : list str;
  written : list (str * option (html_document float))
}.

(** Lines 74-292 with their effects: the document goes to [output_file],
    then two lines are printed. *)
Definition generate_html_map_effects (nodes : list (node_data float))
    (output_file subnet_id : str) : effects * option Process.failure :=
  let html_template := generate_html_map nodes subnet_id in
  match write_file output_file html_template with
  | Process.NotOpened =>
      ({| printed := []; written := [] |}, Some Process.WriteFailed)
  | Process.Cut =>
      ({| printed := []; written := [ (output_file, None) ] |},
       Some Process.WriteFailed)
  | Process.Stored =>
      let generated := lit "Interactive map generated: " ++ output_file in
      match absolute output_file with
      | Some path =>
          ({| printed := [ generated; lit "Open in browser to view: file://" ++ path ];
              written := [ (output_file, Some html_template) ] |}, None)
      | None =>
          ({| printed := [ generated ];
              written := [ (output_file, Some html_template) ] |},
           Some Process.AbsoluteFailed)
      end
  end.

(** Lines 305-321, from the parsed arguments: the effects of the run and
    how it ends.  The rows of an input whose reading raises are
    processed, and their warnings printed, up to the row at which it
    raises. *)
Definition main (input_path : str) (input : Process.input_file)
    (output_file subnet_id : str) : effects * Process.ending :=
  let reading := [ lit "Reading data from " ++ input_path ++ lit "..." ] in
  match input with
  | Process.Missing =>
      ({| printed := [ lit "Error: Input file " ++ input_path ++ lit " not found" ];
          written := [] |}, Process.Exit 1)
  | Process.Unreadable rows_read =>
      ({| printed := reading ++ (read_subnet_data py_float rows_read).1;
          written := [] |}, Process.Uncaught Process.ReadFailed)
  | Process.Readable csv_file =>
      let '(warnings, nodes) := read_subnet_data py_float csv_file in
      if bool_decide (nodes = []) then
        ({| printed := reading ++ warnings ++ [ lit "No nodes found in input file" ];
            written := [] |}, Process.Exit 1)
      else
        let map := generate_html_map_effects nodes output_file subnet_id in
        ({| printed :=
              reading ++ warnings
              ++ [ lit "Generating map for " ++ str_of_nat (length nodes)
                   ++ lit " nodes..." ]
              ++ printed map.1;
            written := written map.1 |},
         match map.2 with
         | None => Process.Exit 0
         | Some f => Process.Uncaught f
         end)
  end.

End entry_point.

Arguments effects : clear implicits.

End SubnetMap.

(** ** Definitions in which the properties are stated

    The wording of the specification where the code is compared with it,
    and the notions the statements below need. *)

Module Spec.

(** Section 4.2: "map positionally". *)
Definition region_by_position (segments : list str) : str * str * str :=
  match segments with
  | continent :: country :: city :: _ => (continent, country, city)
  | [continent; country] => (continent, country, [])
  | [region] => (region, [], [])
  | [] => ([], [], [])
  end.

(** Section 4.2: "split on comma, trim whitespace per segment, and map
    positionally". *)
Definition parse_region_spec (s : str) : str * str * str :=
  region_by_position (strip <$> split GeoSummary.comma s).

Definition as_result (r : str * str * str) : value * str * str :=
  (Some r.1.1, r.1.2, r.2).

(** The grouping keys the two variants have in common. *)
Definition text_region_keys (s : str) : outcome (str * str) :=
  '(_, country, city) ← GeoSummary.parse_region (Some s); mret (country, city).
Definition map_region_keys (s : str) : outcome (str * str) :=
  SubnetMap.parse_region (Some s).

(** Section 3: "non-empty and not equal to the two sentinel values". *)
Definition in_violation (v : value) : Prop :=
  match v with
  | Some s => s ≠ [] ∧ s ≠ lit "NO_VIOLATIONS" ∧ s ≠ lit "REMOVED_NODE"
  | None => False
  end.

#[global] Instance in_violation_dec v : Decision (in_violation v).
Proof. destruct v; apply _. Defined.

(** Section 4.3: the nodes that are not removed and share the key [k] of
    a field ([dc_id] or [dc_owner]). *)
Definition active_in (field : GeoSummary.node → value) (k : value)
    (nodes : list GeoSummary.node) : list GeoSummary.node :=
  filter (λ n, GeoSummary.change_type n ≠ Some (lit "REMOVED") ∧ field n = k) nodes.

(** The country under which the text report files a node. *)
Definition country_of (n : GeoSummary.node) : str :=
  match GeoSummary.parse_region (GeoSummary.dc_region n) with
  | Returned (_, country, _) => country
  | Raised _ => []
  end.

(** What the text report keeps of a node, when its region parses to
    [(continent, country, city)] and its id is a string. *)
Definition continent_of (n : GeoSummary.node) : value :=
  match GeoSummary.parse_region (GeoSummary.dc_region n) with
  | Returned (continent, _, _) => continent
  | Raised _ => None
  end.

Definition city_of (n : GeoSummary.node) : str :=
  match GeoSummary.parse_region (GeoSummary.dc_region n) with
  | Returned (_, _, city) => city
  | Raised _ => []
  end.

Definition region_key_of (n : GeoSummary.node) : str :=
  fmt (continent_of n) ++ lit "," ++ country_of n.

Definition node_info_of (n : GeoSummary.node) : GeoSummary.node_info :=
  {| GeoSummary.info_node_id := take 20 (default [] (GeoSummary.node_id n)) ++ lit "...";
     GeoSummary.info_dc_id := GeoSummary.dc_id n;
     GeoSummary.info_dc_owner := GeoSummary.dc_owner n;
     GeoSummary.info_change_type := GeoSummary.change_type n;
     GeoSummary.info_violations := GeoSummary.constraint_violation n;
     GeoSummary.info_city := city_of n |}.

(** The loop [for x in l: d[key(x)].append(val(x))] on a dictionary [d],
    and the values it files under the key [k]. *)
Definition grouped {A K V} `{EqDecision K} (key : A → K) (val : A → V)
    (l : list A) (d : list (K * list V)) : list (K * list V) :=
  fold_left (λ d x, dict_append d (key x) (val x)) l d.

Definition members {A K V} `{EqDecision K} (key : A → K) (val : A → V)
    (k : K) (l : list A) : list V :=
  val <$> filter (λ x, key x = k) l.

(** Reading [l] from the left, [a] is met before [b] is. *)
Fixpoint first_before {A} (l : list A) (a b : A) : Prop :=
  match l with
  | [] => False
  | x :: l' => x ≠ b ∧ (x = a ∨ first_before l' a b)
  end.

(** The columns the text loader reads: name, default and the field of
    the record they fill (lines 20-26). *)
Definition text_columns : list (string * string * (GeoSummary.node → value)) :=
  [ ("node_id", "", GeoSummary.node_id);
    ("node_operator_dc", "", GeoSummary.dc_id);
    ("dc_owner", "", GeoSummary.dc_owner);
    ("dc_region", "", GeoSummary.dc_region);
    ("change_type", "UNCHANGED", GeoSummary.change_type);
    ("constraint_violation", "", GeoSummary.constraint_violation);
    ("reward_region", "", GeoSummary.reward_region) ]%string.

(** The constraint analysis when nothing is flagged (lines 156-158 and
    195-197). *)
Definition all_clear_lines : list str :=
  [ [10%N] ++ GeoSummary.rule;
    [0x1F6A8%N] ++ lit " CONSTRAINT ANALYSIS:";
    GeoSummary.rule;
    [0x2705%N] ++ lit " No obvious datacenter or owner constraint violations detected";
    lit "   (Note: Provider constraint checking requires full audit data)";
    [] ].

(** The nodes the structural heuristic looks at. *)
Definition active (nodes : list GeoSummary.node) : list GeoSummary.node :=
  filter (λ n, GeoSummary.change_type n ≠ Some (lit "REMOVED")) nodes.

(** What the loader of the map variant makes of one row: the node it
    keeps, or the warning it prints. *)
Definition kept_node {float} (py_float : str → option float)
    (row : list (str * value)) : option (SubnetMap.node_data float) :=
  match SubnetMap.read_row py_float row with
  | Returned n => Some n
  | Raised _ => None
  end.

Definition skip_warning {float} (py_float : str → option float)
    (row : list (str * value)) : option str :=
  match SubnetMap.read_row py_float row with
  | Returned _ => None
  | Raised e =>
      Some (lit "Warning: Could not process node "
            ++ fmt (Csv.get row "node_id" "unknown") ++ lit ": "
            ++ lit (exn_message e))
  end.

(** Section 4.2: "trim; treat empty string or the literal text None as
    unset; otherwise attempt numeric parse; parse failure is treated as
    unset". *)
Definition coerced {float} (py_float : str → option float) (raw : str) : option float :=
  if decide (strip raw = [] ∨ strip raw = lit "None") then None
  else py_float (strip raw).

(** The rows [csv.DictReader] yields records for. *)
Definition data_rows (csv_file : list (list str)) : list (list str) :=
  filter (λ r, r ≠ []) (tail csv_file).

End Spec.

Import Spec.

(** ** Sample inputs *)

Definition sample_node (id dc owner change : string) : GeoSummary.node :=
  GeoSummary.Node (Some (lit id)) (Some (lit dc)) (Some (lit owner))
    (Some (lit "NA,US,NYC")) (Some (lit change)) (Some (lit "NO_VIOLATIONS"))
    (Some (lit "")).

Definition node_in (id region : string) : GeoSummary.node :=
  GeoSummary.Node (Some (lit id)) (Some (lit "dc")) (Some (lit "owner"))
    (Some (lit region)) (Some (lit "UNCHANGED")) (Some (lit "")) (Some (lit "")).

(** Germany and France have one node each, Germany is met first. *)
Definition tied_nodes : list GeoSummary.node :=
  [ node_in "n1" "EU,DE,Berlin"; node_in "n2" "NA,US,NYC";
    node_in "n3" "EU,FR,Paris"; node_in "n4" "NA,US,Boston" ].

(** A file without the columns [node_operator_dc] and [dc_owner]. *)
Definition csv_without_dc_columns : list (list str) :=
  [ [lit "node_id"]; [lit "n1"]; [lit "n2"] ].

(** A file whose only row is shorter than its header. *)
Definition short_row_csv : list (list str) :=
  [ [lit "dc_region"; lit "node_id"]; [lit "NA"] ].

(** ** Facts about the runtime *)

Section split_facts.
Variable sep : N.

Lemma split_not_nil (s : str) : split sep s ≠ [].
Proof. destruct s as [|c s]; simpl; [done|]. case_match; [done|]. by case_match. Qed.

Lemma split_without_sep (s : str) : sep ∉ s → split sep s = [s].
Proof.
  induction s as [|c s IH]; intros Hs; simpl; [done|].
  apply not_elem_of_cons in Hs as [Hc Hs].
  destruct (N.eqb_spec c sep) as [->|_]; [done|].
  by rewrite IH.
Qed.

Lemma split_with_sep (s : str) : sep ∈ s → 2 ≤ length (split sep s).
Proof.
  induction s as [|c s IH]; intros Hs; [by apply elem_of_nil in Hs|].
  simpl. destruct (N.eqb_spec c sep) as [->|Hne].
  - simpl. pose proof (split_not_nil s). destruct (split sep s); [done|simpl; lia].
  - apply elem_of_cons in Hs as [->|Hs]; [done|].
    specialize (IH Hs). destruct (split sep s); simpl in *; lia.
Qed.
End split_facts.

Lemma truthy_elem (c : N) (s : str) : c ∈ s → truthy (Some s) = true.
Proof. destruct s; [intros H; by apply elem_of_nil in H|done]. Qed.

(** ** The region parse *)

Lemma parse_region_equation (s : str) :
  GeoSummary.parse_region (Some s) =
    Returned (if bool_decide (GeoSummary.comma ∈ s)
              then as_result (parse_region_spec s) else (Some s, [], [])).
Proof.
  unfold GeoSummary.parse_region. case_bool_decide as Hc.
  - rewrite (truthy_elem _ _ Hc). simpl andb. cbv iota.
    unfold parse_region_spec.
    pose proof (split_with_sep _ s Hc) as Hlen.
    rewrite <- (length_fmap strip) in Hlen.
    destruct (strip <$> split GeoSummary.comma s) as [|p0 [|p1 [|p2 rest]]];
      simpl in Hlen; try lia.
    + reflexivity.
    + rewrite bool_decide_true by (simpl; lia). reflexivity.
  - by rewrite andb_false_r.
Qed.

Lemma map_parse_region_equation (s : str) :
  SubnetMap.parse_region (Some s) =
    Returned (if bool_decide (SubnetMap.comma ∈ s)
              then (default [] (split SubnetMap.comma s !! 1),
                    default [] (split SubnetMap.comma s !! 2))
              else ([], [])).
Proof.
  unfold SubnetMap.parse_region. case_bool_decide as Hc.
  - rewrite (truthy_elem _ _ Hc). simpl andb. cbv iota.
    pose proof (split_with_sep _ s Hc) as Hlen.
    destruct (split SubnetMap.comma s) as [|p0 [|p1 [|p2 rest]]];
      simpl in Hlen; try lia; reflexivity.
  - by rewrite andb_false_r.
Qed.

Lemma map_parse_region_total (v : value) :
  ∃ r, SubnetMap.parse_region v = Returned r.
Proof.
  destruct v as [s|]; [|by eexists].
  rewrite map_parse_region_equation. by eexists.
Qed.

(** C3, as amended.  The region parse of the text report always returns.
    A string with a comma is split on commas, every segment is trimmed
    and the segments are read by position; a string without a comma is the
    continent as it stands, untrimmed.  The five strings of the
    specification parse as it lists them. *)
Theorem parse_region_total_positional :
  (∀ s : str,
     GeoSummary.parse_region (Some s) =
       Returned (if bool_decide (GeoSummary.comma ∈ s)
                 then as_result (parse_region_spec s) else (Some s, [], [])))
  ∧ GeoSummary.parse_region (Some (lit "")) = Returned (Some (lit ""), lit "", lit "")
  ∧ GeoSummary.parse_region (Some (lit "NA")) = Returned (Some (lit "NA"), lit "", lit "")
  ∧ GeoSummary.parse_region (Some (lit "NA,US"))
    = Returned (Some (lit "NA"), lit "US", lit "")
  ∧ GeoSummary.parse_region (Some (lit "NA,US,NYC"))
    = Returned (Some (lit "NA"), lit "US", lit "NYC")
  ∧ GeoSummary.parse_region (Some (lit "NA,US,NYC,extra"))
    = Returned (Some (lit "NA"), lit "US", lit "NYC").
Proof. split; [exact parse_region_equation|]. repeat split; reflexivity. Qed.

(** C3 as the specification words it fails on a single segment with
    surrounding blanks: the segment is not trimmed. *)
Lemma parse_region_single_segment_untrimmed :
  GeoSummary.parse_region (Some (lit " NA")) = Returned (Some (lit " NA"), [], [])
  ∧ parse_region_spec (lit " NA") = (lit "NA", [], [])
  ∧ GeoSummary.parse_region (Some (lit " NA"))
    ≠ Returned (as_result (parse_region_spec (lit " NA"))).
Proof. repeat split; [reflexivity..|]. vm_compute. discriminate. Qed.

(** C4, as amended.  The map variant returns the second and third
    segments as they stand; the text variant returns the same two
    segments trimmed. *)
Theorem region_keys_text_is_trimmed_map (s : str) :
  ∃ country city,
    map_region_keys s = Returned (country, city)
    ∧ text_region_keys s = Returned (strip country, strip city).
Proof.
  unfold map_region_keys, text_region_keys.
  rewrite map_parse_region_equation, parse_region_equation.
  change SubnetMap.comma with GeoSummary.comma.
  case_bool_decide as Hc; [|by exists [], []].
  eexists _, _. split; [reflexivity|].
  unfold parse_region_spec.
  pose proof (split_with_sep _ s Hc) as Hlen.
  destruct (split GeoSummary.comma s) as [|p0 [|p1 [|p2 rest]]];
    simpl in Hlen; try lia; reflexivity.
Qed.

(** C4 as stated fails when a segment carries blanks. *)
Lemma region_keys_differ_on_blanks :
  text_region_keys (lit "EU, DE") = Returned (lit "DE", lit "")
  ∧ map_region_keys (lit "EU, DE") = Returned (lit " DE", lit "")
  ∧ text_region_keys (lit "EU, DE") ≠ map_region_keys (lit "EU, DE").
Proof. repeat split; [reflexivity..|]. vm_compute. discriminate. Qed.

(** ** Markers *)

(** C8, as amended.  The marker of a change type is looked up in a table
    of four keys: ADDED is green, REMOVED red, UNCHANGED blue and
    VIOLATION yellow; every other change type, [None] included, gets the
    neutral marker.  The lines that annotate a change type print that
    marker. *)
Theorem icon_mapping :
  GeoSummary.icon (Some (lit "ADDED")) = GeoSummary.green
  ∧ GeoSummary.icon (Some (lit "REMOVED")) = GeoSummary.red
  ∧ GeoSummary.icon (Some (lit "UNCHANGED")) = GeoSummary.blue
  ∧ GeoSummary.icon (Some (lit "VIOLATION")) = GeoSummary.yellow
  ∧ (∀ ct : value,
       ct ≠ Some (lit "ADDED") → ct ≠ Some (lit "REMOVED")
       → ct ≠ Some (lit "UNCHANGED") → ct ≠ Some (lit "VIOLATION")
       → GeoSummary.icon ct = GeoSummary.neutral)
  ∧ (∀ ct count, ∃ rest,
       GeoSummary.change_line (ct, count) = lit "  " ++ GeoSummary.icon ct ++ rest)
  ∧ (∀ ct count,
       GeoSummary.country_detail (ct, count) = GeoSummary.icon ct ++ str_of_nat count)
  ∧ (∀ n, ∃ rest more,
       GeoSummary.node_lines n
       = (lit "      " ++ GeoSummary.icon (GeoSummary.info_change_type n) ++ rest)
         :: more)
  ∧ (∀ key members,
       tail (GeoSummary.violation_group_lines (key, members))
       = (λ n, lit "    " ++ GeoSummary.icon (GeoSummary.change_type n) ++ lit " "
               ++ fmt (GeoSummary.node_id n)) <$> members).
Proof.
  repeat split; try reflexivity.
  - intros ct H1 H2 H3 H4. unfold GeoSummary.icon, GeoSummary.colors. cbn [dict_get].
    repeat case_decide; done.
  - intros ct count. eexists. reflexivity.
  - intros n. eexists _, _. reflexivity.
Qed.

Lemma icon_mapping_witness :
  GeoSummary.icon (Some (lit "PENDING")) = GeoSummary.neutral.
Proof.
  destruct icon_mapping as (_ & _ & _ & _ & H & _).
  apply H; vm_compute; discriminate.
Defined.

(** C8 as stated fails for the change type VIOLATION: it is none of the
    three recognised values, and its marker is yellow, not neutral. *)
Lemma icon_of_violation_change_type :
  (Some (lit "VIOLATION")
   ∉ [Some (lit "ADDED"); Some (lit "REMOVED"); Some (lit "UNCHANGED")])
  ∧ GeoSummary.icon (Some (lit "VIOLATION")) = GeoSummary.yellow
  ∧ GeoSummary.icon (Some (lit "VIOLATION")) ≠ GeoSummary.neutral.
Proof.
  split; [|split; [reflexivity|vm_compute; discriminate]].
  apply (bool_decide_unpack _). vm_compute. exact I.
Qed.

(** ** Nodes in violation *)

Lemma in_violation_test (v : value) :
  truthy v && bool_decide (v ∉ GeoSummary.sentinels) ↔ in_violation v.
Proof.
  rewrite andb_True, bool_decide_spec. unfold GeoSummary.sentinels, in_violation.
  rewrite !not_elem_of_cons.
  destruct v as [[|c s]|]; simpl; split.
  - intros [[] _].
  - intros [H _]. done.
  - intros (_ & H1 & H2 & _). split_and!; congruence.
  - intros (_ & H1 & H2). split_and!; [done|congruence..|apply not_elem_of_nil].
  - intros [[] _].
  - intros [].
Qed.

(** ** Coordinates and the map document *)

Section map_document.
Context {float : Type}.
Variable py_float : str → option float.

Lemma coordinate_equation (coord_str : str) :
  SubnetMap.coordinate py_float coord_str
  = if bool_decide (coord_str = [] ∨ coord_str = lit "None") then None
    else py_float coord_str.
Proof.
  unfold SubnetMap.coordinate.
  destruct coord_str as [|c s]; simpl truthy; simpl andb; cbv iota.
  { by rewrite bool_decide_true by (by left). }
  destruct (decide (c :: s = lit "None")) as [Heq|Hne].
  - rewrite (bool_decide_false (_ ≠ _)) by (by intros H; apply H).
    by rewrite bool_decide_true by (by right).
  - rewrite (bool_decide_true (_ ≠ _)) by done.
    by rewrite bool_decide_false by (by intros [|]).
Qed.

(** C5.  The marker data of the document are the input nodes with both
    coordinates set, in input order, and no other node; the figures of
    the panel are taken over all input nodes, so the total is the number
    of input records. *)
Theorem map_plots_located_panel_counts_all
    (nodes : list (SubnetMap.node_data float)) (subnet_id : str) :
  let doc := SubnetMap.generate_html_map nodes subnet_id in
  (∀ n, n ∈ SubnetMap.marker_data doc
        ↔ n ∈ nodes ∧ SubnetMap.latitude n ≠ None ∧ SubnetMap.longitude n ≠ None)
  ∧ SubnetMap.marker_data doc `sublist_of` nodes
  ∧ SubnetMap.panel_total doc = length nodes
  ∧ length (SubnetMap.marker_data doc) ≤ SubnetMap.panel_total doc
  ∧ SubnetMap.panel_added doc
    = length (filter (λ n, SubnetMap.change_type n = Some (lit "ADDED")) nodes)
  ∧ SubnetMap.panel_removed doc
    = length (filter (λ n, SubnetMap.change_type n = Some (lit "REMOVED")) nodes)
  ∧ SubnetMap.panel_unchanged doc
    = length (filter (λ n, SubnetMap.change_type n = Some (lit "UNCHANGED")) nodes)
  ∧ SubnetMap.panel_violations doc
    = length (filter (λ n, in_violation (SubnetMap.constraint_violation n)) nodes).
Proof.
  simpl. split_and!; try reflexivity.
  - intros n. rewrite list_elem_of_filter. tauto.
  - apply sublist_filter.
  - apply length_filter.
  - f_equal. apply list_filter_iff. intros n. apply in_violation_test.
Qed.
End map_document.

Example unlocated_nodes_are_counted_not_plotted :
  let located := SubnetMap.NodeData (float := Q) None None None None None None [] []
                   None None None None (Some (1 # 2)%Q) (Some 3%Q) in
  let unlocated := SubnetMap.NodeData (float := Q) None None None None None None [] []
                     None None None None (Some (1 # 2)%Q) None in
  let doc := SubnetMap.generate_html_map [unlocated; located] [] in
  SubnetMap.marker_data doc = [located] ∧ SubnetMap.panel_total doc = 2.
Proof. split; reflexivity. Qed.

(** ** Dictionaries of groups *)

Section grouping.
Context {A K V : Type} `{EqDecision K}.
Variables (key : A → K) (val : A → V).

Lemma dict_get_append (d : list (K * list V)) k v k' :
  dict_get (dict_append d k v) k'
  = if decide (k' = k) then Some (default [] (dict_get d k) ++ [v])
    else dict_get d k'.
Proof.
  induction d as [|[k0 vs] d IH]; simpl; [by case_decide|].
  destruct (decide (k = k0)) as [->|Hne]; simpl; [|rewrite IH];
    repeat case_decide; by simplify_eq.
Qed.

Lemma dict_append_keys_old (d : list (K * list V)) k v :
  k ∈ d.*1 → (dict_append d k v).*1 = d.*1.
Proof.
  induction d as [|[k0 vs] d IH]; simpl; [by intros ?%elem_of_nil|].
  intros Hin. case_decide; simpl; [done|]. f_equal. apply IH.
  apply elem_of_cons in Hin as [?|?]; done.
Qed.

Lemma dict_append_keys_new (d : list (K * list V)) k v :
  k ∉ d.*1 → (dict_append d k v).*1 = d.*1 ++ [k].
Proof.
  induction d as [|[k0 vs] d IH]; simpl; [done|].
  intros [? ?]%not_elem_of_cons. case_decide; simpl; [done|]. f_equal. by apply IH.
Qed.

Lemma dict_get_None (d : list (K * list V)) k : dict_get d k = None ↔ k ∉ d.*1.
Proof.
  induction d as [|[k0 vs] d IH]; simpl.
  - split; [intros _; apply not_elem_of_nil|done].
  - rewrite not_elem_of_cons. case_decide; [|rewrite IH]; split; try done.
    all: by intros [].
Qed.

Lemma dict_elem_get (d : list (K * list V)) k g :
  NoDup d.*1 → (k, g) ∈ d ↔ dict_get d k = Some g.
Proof.
  induction d as [|[k0 vs] d IH]; simpl; intros Hnd.
  - split; [by intros ?%elem_of_nil|done].
  - apply NoDup_cons in Hnd as [Hk0 Hnd]. rewrite elem_of_cons, (IH Hnd).
    destruct (decide (k = k0)) as [->|Hne].
    + split; [intros [[= ->]|Hget]; [done|]|intros [= ->]; by left].
      exfalso. apply Hk0. destruct (decide (k0 ∈ d.*1)) as [|Hout]; [done|].
      apply dict_get_None in Hout. congruence.
    + split; [intros [[= ? ?]|?]; done|by right].
Qed.

Lemma grouped_snoc l x d :
  grouped key val (l ++ [x]) d = dict_append (grouped key val l d) (key x) (val x).
Proof. unfold grouped. by rewrite fold_left_app. Qed.

Lemma members_snoc k l x :
  members key val k (l ++ [x]) = members key val k l ++ (if decide (key x = k) then [val x] else []).
Proof.
  unfold members. rewrite filter_app, fmap_app, filter_cons, filter_nil.
  by case_decide.
Qed.

Lemma grouped_get l k :
  dict_get (grouped key val l []) k
  = if decide (members key val k l = []) then None else Some (members key val k l).
Proof.
  induction l as [|x l IH] using rev_ind; [done|].
  rewrite grouped_snoc, dict_get_append, members_snoc.
  assert (∀ m : list V, m ++ [val x] ≠ []) as Hsnoc
    by (by intros m [_ ?]%app_eq_nil).
  destruct (decide (k = key x)) as [->|Hne].
  - rewrite (decide_True (P := key x = key x)) by done.
    rewrite (decide_False (P := _ ++ [val x] = [])) by apply Hsnoc.
    rewrite IH. by case_decide as Hm; [rewrite Hm|].
  - rewrite (decide_False (P := key x = k)) by done. by rewrite IH, app_nil_r.
Qed.

Lemma grouped_keys_elem l k : k ∈ (grouped key val l []).*1 ↔ k ∈ key <$> l.
Proof.
  induction l as [|x l IH] using rev_ind; [done|].
  rewrite grouped_snoc, fmap_app, elem_of_app, <- IH.
  simpl. rewrite list_elem_of_singleton.
  destruct (decide (key x ∈ (grouped key val l []).*1)) as [Hin|Hout].
  - rewrite dict_append_keys_old by done. split; [by left|intros [?| ->]; done].
  - rewrite dict_append_keys_new by done.
    rewrite elem_of_app, list_elem_of_singleton. tauto.
Qed.

Lemma grouped_keys_NoDup l : NoDup (grouped key val l []).*1.
Proof.
  induction l as [|x l IH] using rev_ind; [constructor|].
  rewrite grouped_snoc.
  destruct (decide (key x ∈ (grouped key val l []).*1)) as [Hin|Hout];
    [by rewrite dict_append_keys_old|rewrite dict_append_keys_new by done].
  apply NoDup_app. split_and!; [done| |apply NoDup_singleton].
  intros k Hk ->%list_elem_of_singleton. done.
Qed.

(** A group of the dictionary is the list of the members key val of its key, in
    input order, and only keys with a member have a group. *)
Lemma grouped_elem l k g :
  (k, g) ∈ grouped key val l [] ↔ g = members key val k l ∧ g ≠ [].
Proof.
  rewrite (dict_elem_get _ _ _ (grouped_keys_NoDup l)), grouped_get.
  case_decide as Hm; split; try done.
  - intros [-> ?]. done.
  - intros [= <-]. done.
  - intros [-> _]. done.
Qed.
End grouping.

(** ** The structural heuristic *)

Lemma constraint_groups_grouped (nodes : list GeoSummary.node) :
  let active := filter (λ n, GeoSummary.change_type n ≠ Some (lit "REMOVED")) nodes in
  GeoSummary.constraint_groups nodes
  = (grouped GeoSummary.dc_id id active [], grouped GeoSummary.dc_owner id active []).
Proof.
  unfold GeoSummary.constraint_groups. simpl.
  assert (∀ st,
    fold_left
      (λ (st : list (value * list GeoSummary.node)
               * list (value * list GeoSummary.node)) n,
         if bool_decide (GeoSummary.change_type n = Some (lit "REMOVED")) then st
         else (dict_append st.1 (GeoSummary.dc_id n) n,
               dict_append st.2 (GeoSummary.dc_owner n) n))
      nodes st
    = (grouped GeoSummary.dc_id id
         (filter (λ n, GeoSummary.change_type n ≠ Some (lit "REMOVED")) nodes) st.1,
       grouped GeoSummary.dc_owner id
         (filter (λ n, GeoSummary.change_type n ≠ Some (lit "REMOVED")) nodes) st.2))
    as Hfold; [|apply Hfold].
  induction nodes as [|n nodes IH]; intros [d o]; [done|].
  simpl fold_left. rewrite filter_cons. case_bool_decide as Hrm.
  - rewrite decide_False by (by intros H; apply H). apply IH.
  - rewrite decide_True by done. rewrite IH. done.
Qed.

Lemma members_active (field : GeoSummary.node → value) k nodes :
  members field id k
    (filter (λ n, GeoSummary.change_type n ≠ Some (lit "REMOVED")) nodes)
  = active_in field k nodes.
Proof.
  unfold members, active_in. rewrite list_fmap_id, list_filter_filter.
  apply list_filter_iff. intros n. tauto.
Qed.

(** A group is flagged when it holds more than one node, and then it is
    the list of the active nodes of its key. *)
Lemma flagged_elem (field : GeoSummary.node → value) k g nodes :
  (k, g) ∈ filter (λ kv : value * list GeoSummary.node, 1 < length kv.2)
             (grouped field id
                (filter (λ n, GeoSummary.change_type n ≠ Some (lit "REMOVED")) nodes) [])
  ↔ g = active_in field k nodes ∧ 1 < length g.
Proof.
  rewrite list_elem_of_filter, grouped_elem, members_active. simpl.
  split; [tauto|]. intros [-> Hlen]. split_and!; [done..|].
  intros Hnil. rewrite Hnil in Hlen. simpl in Hlen. lia.
Qed.

Lemma dc_violations_elem k g nodes :
  (k, g) ∈ GeoSummary.dc_violations nodes
  ↔ g = active_in GeoSummary.dc_id k nodes ∧ 1 < length g.
Proof.
  unfold GeoSummary.dc_violations, GeoSummary.datacenters.
  rewrite constraint_groups_grouped. apply flagged_elem.
Qed.

Lemma owner_violations_elem k g nodes :
  (k, g) ∈ GeoSummary.owner_violations nodes
  ↔ g = active_in GeoSummary.dc_owner k nodes ∧ 1 < length g.
Proof.
  unfold GeoSummary.owner_violations, GeoSummary.owners.
  rewrite constraint_groups_grouped. apply flagged_elem.
Qed.



Example two_active_nodes_in_one_datacenter :
  let n1 := sample_node "n1" "dc1" "A" "UNCHANGED" in
  let n2 := sample_node "n2" "dc1" "B" "UNCHANGED" in
  GeoSummary.dc_violations [n1; n2] = [(Some (lit "dc1"), [n1; n2])]
  ∧ GeoSummary.owner_violations [n1; n2] = [].
Proof. split; reflexivity. Qed.

Example one_node_per_datacenter :
  GeoSummary.dc_violations
    [sample_node "n1" "dc1" "A" "UNCHANGED"; sample_node "n2" "dc2" "B" "ADDED"] = [].
Proof. reflexivity. Qed.

Example removed_node_is_not_counted :
  GeoSummary.dc_violations
    [sample_node "n1" "dc1" "A" "REMOVED"; sample_node "n2" "dc1" "B" "ADDED"] = [].
Proof. reflexivity. Qed.

(** ** Defaults of the loader *)

Section dict_set_facts.
Context {K V : Type} `{EqDecision K}.

Lemma dict_get_set (d : list (K * V)) k v k' :
  dict_get (dict_set d k v) k' = if decide (k' = k) then Some v else dict_get d k'.
Proof.
  induction d as [|[k0 v0] d IH]; simpl; [done|].
  destruct (decide (k = k0)) as [->|Hne]; simpl; [|rewrite IH];
    repeat case_decide; by simplify_eq.
Qed.

Lemma dict_get_fold_set {B} (f : B → K) (g : B → V) (l : list B) d k :
  k ∉ f <$> l → dict_get d k = None →
  dict_get (fold_left (λ d x, dict_set d (f x) (g x)) l d) k = None.
Proof.
  revert d. induction l as [|x l IH]; intros d Hk Hd; [done|].
  rewrite fmap_cons in Hk. apply not_elem_of_cons in Hk as [Hx Hk].
  simpl. apply IH; [done|]. rewrite dict_get_set. by rewrite decide_False.
Qed.
End dict_set_facts.

(** A column that the header does not name is absent from every row. *)
Lemma DictReader_row_absent (fieldnames : list (str)) (r : list (str)) k :
  k ∉ fieldnames → dict_get (Csv.DictReader_row fieldnames r) k = None.
Proof.
  intros Hk. unfold Csv.DictReader_row.
  apply (dict_get_fold_set id (λ _, None)).
  - rewrite list_fmap_id. intros Hin. apply Hk. by apply (subseteq_drop (length r)).
  - apply (dict_get_fold_set fst (λ kv, Some kv.2)); [|done].
    intros [[k' v] [-> Hin]]%list_elem_of_fmap. simpl in Hk.
    by apply elem_of_zip_l in Hin.
Qed.

Lemma get_absent_column (fieldnames : list (str)) r (k dflt : string) :
  lit k ∉ fieldnames →
  Csv.get (Csv.DictReader_row fieldnames r) k dflt = Some (lit dflt).
Proof. intros Hk. unfold Csv.get. by rewrite DictReader_row_absent. Qed.

Lemma elem_of_concat {A} (x : A) (ls : list (list A)) :
  x ∈ concat ls ↔ ∃ l, x ∈ l ∧ l ∈ ls.
Proof.
  rewrite list_elem_of_In, in_concat. split.
  - intros (l & ? & ?). exists l. by rewrite !list_elem_of_In.
  - intros (l & ? & ?). exists l. by rewrite <- !list_elem_of_In.
Qed.

Lemma flagged_group_is_printed (group : value * list GeoSummary.node) nodes :
  group ∈ GeoSummary.dc_violations nodes ∨ group ∈ GeoSummary.owner_violations nodes →
  lit "  " ++ GeoSummary.warning_sign ++ lit "  " ++ fmt group.1 ++ lit ": "
    ++ str_of_nat (length group.2) ++ lit " nodes"
  ∈ GeoSummary.constraint_lines nodes.
Proof.
  intros Hin. unfold GeoSummary.constraint_lines.
  assert (∀ gs, group ∈ gs →
    lit "  " ++ GeoSummary.warning_sign ++ lit "  " ++ fmt group.1 ++ lit ": "
      ++ str_of_nat (length group.2) ++ lit " nodes"
    ∈ concat (GeoSummary.violation_group_lines <$> gs)) as Hline.
  { intros gs Hg. apply elem_of_concat.
    exists (GeoSummary.violation_group_lines group). split.
    - unfold GeoSummary.violation_group_lines. apply elem_of_app. left.
      apply list_elem_of_singleton. done.
    - apply list_elem_of_fmap. by exists group. }
  rewrite !elem_of_app. destruct Hin as [Hin|Hin].
  - right. left. rewrite bool_decide_true.
    + rewrite !elem_of_app. right. left. by apply Hline.
    + intros Hnil. rewrite Hnil in Hin. by apply elem_of_nil in Hin.
  - right. right. left. rewrite bool_decide_true.
    + rewrite !elem_of_app. right. left. by apply Hline.
    + intros Hnil. rewrite Hnil in Hin. by apply elem_of_nil in Hin.
Qed.

Lemma constraint_lines_in_report line nodes subnet_id g :
  line ∈ GeoSummary.constraint_lines nodes → line ∈ GeoSummary.report nodes subnet_id g.
Proof.
  intros Hin. destruct g as [[regions countries] continents].
  unfold GeoSummary.report. rewrite !elem_of_app. tauto.
Qed.

(** C10.  The loader gives an absent [node_operator_dc] or [dc_owner]
    column the empty string, and the empty string is a key like any
    other: two or more nodes that are not REMOVED and whose [dc_id]
    (whose [dc_owner]) is empty form a flagged group, and the line of
    that group is in the report. *)
Theorem empty_key_is_flagged (nodes : list GeoSummary.node) :
  (2 ≤ length (active_in GeoSummary.dc_id (Some []) nodes)
   → (Some [], active_in GeoSummary.dc_id (Some []) nodes)
       ∈ GeoSummary.dc_violations nodes
     ∧ ∀ subnet_id g,
         lit "  " ++ GeoSummary.warning_sign ++ lit "  : "
           ++ str_of_nat (length (active_in GeoSummary.dc_id (Some []) nodes))
           ++ lit " nodes"
         ∈ GeoSummary.report nodes subnet_id g)
  ∧ (2 ≤ length (active_in GeoSummary.dc_owner (Some []) nodes)
     → (Some [], active_in GeoSummary.dc_owner (Some []) nodes)
         ∈ GeoSummary.owner_violations nodes
       ∧ ∀ subnet_id g,
           lit "  " ++ GeoSummary.warning_sign ++ lit "  : "
             ++ str_of_nat (length (active_in GeoSummary.dc_owner (Some []) nodes))
             ++ lit " nodes"
           ∈ GeoSummary.report nodes subnet_id g)
  ∧ (∀ fieldnames rows n,
       n ∈ GeoSummary.read_subnet_data (fieldnames :: rows)
       → (lit "node_operator_dc" ∉ fieldnames → GeoSummary.dc_id n = Some [])
         ∧ (lit "dc_owner" ∉ fieldnames → GeoSummary.dc_owner n = Some [])).
Proof.
  split_and!.
  - intros Hlen.
    assert ((Some [], active_in GeoSummary.dc_id (Some []) nodes)
            ∈ GeoSummary.dc_violations nodes) as Hin
      by (apply dc_violations_elem; split; [done|lia]).
    split; [done|]. intros subnet_id g. apply constraint_lines_in_report.
    apply (flagged_group_is_printed _ nodes (or_introl Hin)).
  - intros Hlen.
    assert ((Some [], active_in GeoSummary.dc_owner (Some []) nodes)
            ∈ GeoSummary.owner_violations nodes) as Hin
      by (apply owner_violations_elem; split; [done|lia]).
    split; [done|]. intros subnet_id g. apply constraint_lines_in_report.
    apply (flagged_group_is_printed _ nodes (or_intror Hin)).
  - intros fieldnames rows n Hn. unfold GeoSummary.read_subnet_data in Hn.
    apply list_elem_of_fmap in Hn as (row & -> & Hrow). simpl in Hrow.
    apply list_elem_of_fmap in Hrow as (r & -> & _). simpl.
    split; intros Hk; by apply get_absent_column.
Qed.

Lemma empty_key_is_flagged_witness :
  (Some [], active_in GeoSummary.dc_id (Some [])
              (GeoSummary.read_subnet_data csv_without_dc_columns))
  ∈ GeoSummary.dc_violations (GeoSummary.read_subnet_data csv_without_dc_columns)
  ∧ (Some [], active_in GeoSummary.dc_owner (Some [])
                (GeoSummary.read_subnet_data csv_without_dc_columns))
    ∈ GeoSummary.owner_violations (GeoSummary.read_subnet_data csv_without_dc_columns).
Proof.
  destruct (empty_key_is_flagged (GeoSummary.read_subnet_data csv_without_dc_columns))
    as (Hdc & Hown & _).
  split; [apply Hdc|apply Hown]; vm_compute; lia.
Defined.

Example empty_keys_in_the_report :
  GeoSummary.dc_violations (GeoSummary.read_subnet_data csv_without_dc_columns)
  = [(Some [], GeoSummary.read_subnet_data csv_without_dc_columns)].
Proof. reflexivity. Qed.

(** ** Encounter order *)

Section first_before.
Context {A : Type}.
Implicit Types l : list A.

Lemma first_before_elem l a b : first_before l a b → a ∈ l ∧ a ≠ b.
Proof.
  induction l as [|x l IH]; simpl; [done|].
  intros [Hxb [->|Hfb]]; [split; [left|done]|].
  destruct (IH Hfb). split; [by right|done].
Qed.

Lemma first_before_absent l a b : a ∈ l → b ∉ l → first_before l a b.
Proof.
  induction l as [|x l IH]; simpl; [by intros ?%elem_of_nil|].
  intros Ha [Hbx Hb]%not_elem_of_cons. split; [done|].
  apply elem_of_cons in Ha as [->|Ha]; [by left|right; by apply IH].
Qed.

Lemma first_before_snoc l k a b :
  first_before (l ++ [k]) a b
  ↔ first_before l a b ∨ (a = k ∧ (b ∉ l) ∧ a ≠ b).
Proof.
  induction l as [|x l IH]; simpl.
  - split.
    + intros [Hkb [->|[]]]. right. split_and!; [done|apply not_elem_of_nil|done].
    + intros [[]|(-> & _ & Hab)]. split; [done|by left].
  - rewrite IH, not_elem_of_cons. split.
    + intros [Hxb [->|[Hfb|(-> & Hb & Hab)]]].
      * left. split; [done|by left].
      * left. split; [done|by right].
      * right. done.
    + intros [[Hxb [->|Hfb]]|(-> & [Hbx Hb] & Hab)].
      * split; [done|by left].
      * split; [done|right; by left].
      * split; [done|]. right. right. done.
Qed.

Lemma first_before_filter (P : A → Prop) `{!∀ x, Decision (P x)} l a b :
  P a → P b → first_before (filter P l) a b ↔ first_before l a b.
Proof.
  intros Ha Hb. induction l as [|x l IH]; [done|].
  rewrite filter_cons. case_decide as Hx; simpl; rewrite IH; [done|].
  split; [|by intros [_ [->|Hfb]]].
  intros Hfb. split; [by intros ->|by right].
Qed.

Lemma first_before_fmap `{EqDecision A} {B} (f : A → B) l a b :
  (∀ x y, x ∈ l → y ∈ l → f x = f y → x = y) → a ∈ l → b ∈ l →
  first_before (f <$> l) (f a) (f b) ↔ first_before l a b.
Proof.
  induction l as [|x l IH]; [done|]. intros Hinj Ha Hb. simpl.
  assert (x ∈ x :: l) as Hx by left.
  destruct (decide (x = b)) as [->|Hxb]; [by split; intros [[] _]|].
  assert (f x ≠ f b) by (intros Heq; by apply Hxb, Hinj).
  destruct (decide (x = a)) as [->|Hxa]; [split; (split; [done|by left])|].
  assert (f x ≠ f a) by (intros Heq; by apply Hxa, Hinj).
  apply elem_of_cons in Ha as [->|Ha]; [done|].
  apply elem_of_cons in Hb as [->|Hb]; [done|].
  rewrite IH; [|intros y z Hy Hz; apply Hinj; by right|done..].
  split; intros [_ [?|?]]; done || (split; [done|by right]).
Qed.
End first_before.

(** ** [sorted] by a count, largest first *)

Section sorted_by_count.
Context {A : Type} (count : A → nat).

Let before (y x : A) : bool := bool_decide (count x < count y).

Lemma sorted_insert_perm x l : sorted_insert before x l ≡ₚ x :: l.
Proof.
  induction l as [|y l IH]; simpl; [done|].
  case_match; [|done]. rewrite IH. apply Permutation_swap.
Qed.

Lemma sorted_perm l : sorted before l ≡ₚ l.
Proof.
  induction l as [|x l IH]; simpl; [done|].
  by rewrite sorted_insert_perm, IH.
Qed.

Lemma sorted_insert_descending x l :
  StronglySorted (λ a b, count b ≤ count a) l →
  StronglySorted (λ a b, count b ≤ count a) (sorted_insert before x l).
Proof.
  induction l as [|y l IH]; simpl; intros Hs.
  - repeat constructor.
  - apply StronglySorted_inv in Hs as [Hs Hy]. unfold before at 1.
    case_bool_decide as Hlt.
    + constructor; [by apply IH|].
      rewrite sorted_insert_perm. constructor; [lia|done].
    + constructor; [by constructor|]. constructor; [lia|].
      eapply Forall_impl; [done|]. simpl. intros z Hz. lia.
Qed.

Lemma sorted_descending l :
  StronglySorted (λ a b, count b ≤ count a) (sorted before l).
Proof.
  induction l as [|x l IH]; simpl; [constructor|].
  by apply sorted_insert_descending.
Qed.

Lemma sorted_insert_class k x l :
  filter (λ a, count a = k) (sorted_insert before x l)
  = filter (λ a, count a = k) (x :: l).
Proof.
  induction l as [|y l IH]; simpl; [done|].
  unfold before at 1. case_bool_decide as Hlt; [|done].
  rewrite filter_cons, IH, !filter_cons.
  repeat case_decide; try done. lia.
Qed.

(** Elements of equal count leave [sorted] in the order they entered. *)
Lemma sorted_class k l :
  filter (λ a, count a = k) (sorted before l) = filter (λ a, count a = k) l.
Proof.
  induction l as [|x l IH]; simpl; [done|].
  by rewrite sorted_insert_class, !filter_cons, IH.
Qed.

Lemma sorted_first_before l a b :
  count a = count b →
  first_before (sorted before l) a b ↔ first_before l a b.
Proof.
  intros Heq.
  rewrite <- (first_before_filter (λ x, count x = count a) (sorted before l)) by done.
  rewrite <- (first_before_filter (λ x, count x = count a) l) by done.
  by rewrite sorted_class.
Qed.
End sorted_by_count.

(** ** The groupings of the text report *)

Lemma parse_region_total (v : value) :
  ∃ r, GeoSummary.parse_region v = Returned r.
Proof.
  destruct v as [s|]; [|by eexists].
  rewrite parse_region_equation. by eexists.
Qed.

Lemma analyze_node_Returned st n st' :
  GeoSummary.analyze_node st n = Returned st' →
  GeoSummary.node_id n ≠ None
  ∧ st' = (dict_append st.1.1 (region_key_of n) (node_info_of n),
           dict_append st.1.2 (country_of n) (node_info_of n),
           dict_append st.2 (continent_of n) (node_info_of n)).
Proof.
  destruct st as [[regions countries] continents].
  unfold GeoSummary.analyze_node, region_key_of, node_info_of, country_of,
    continent_of, city_of.
  destruct (GeoSummary.parse_region (GeoSummary.dc_region n))
    as [[[continent country] city]|e]; simpl; [|done].
  destruct (GeoSummary.node_id n) as [s|]; simpl; [|done].
  intros [= <-]. done.
Qed.

Lemma analyze_node_total st n :
  GeoSummary.node_id n ≠ None → ∃ st', GeoSummary.analyze_node st n = Returned st'.
Proof.
  intros Hid. destruct st as [[regions countries] continents].
  unfold GeoSummary.analyze_node.
  destruct (parse_region_total (GeoSummary.dc_region n)) as [[[c k] y] ->].
  destruct (GeoSummary.node_id n) as [s|]; [|done]. by eexists.
Qed.

Lemma analyze_node_None st n :
  GeoSummary.node_id n = None → GeoSummary.analyze_node st n = Raised TypeError.
Proof.
  intros Hid. destruct st as [[regions countries] continents].
  unfold GeoSummary.analyze_node.
  destruct (parse_region_total (GeoSummary.dc_region n)) as [[[c k] y] ->].
  by rewrite Hid.
Qed.

(** When the analysis returns, its three dictionaries are the groups of
    the nodes by region key, by country and by continent. *)
Lemma analyze_Returned nodes g :
  GeoSummary.analyze_geographic_distribution nodes = Returned g →
  g = (grouped region_key_of node_info_of nodes [],
       grouped country_of node_info_of nodes [],
       grouped continent_of node_info_of nodes []).
Proof.
  unfold GeoSummary.analyze_geographic_distribution.
  assert (∀ st, for_each GeoSummary.analyze_node nodes st = Returned g →
    g = (grouped region_key_of node_info_of nodes st.1.1,
         grouped country_of node_info_of nodes st.1.2,
         grouped continent_of node_info_of nodes st.2)) as Hloop; [|apply Hloop].
  induction nodes as [|n nodes IH]; intros st; simpl.
  - intros [= <-]. by destruct st as [[? ?] ?].
  - destruct (GeoSummary.analyze_node st n) as [st'|e] eqn:Hn; simpl; [|done].
    apply analyze_node_Returned in Hn as [_ ->]. intros Hg. by apply IH in Hg.
Qed.

(** The analysis returns exactly when every node id is a string. *)
Lemma analyze_total nodes :
  (∃ g, GeoSummary.analyze_geographic_distribution nodes = Returned g)
  ↔ Forall (λ n, GeoSummary.node_id n ≠ None) nodes.
Proof.
  unfold GeoSummary.analyze_geographic_distribution. generalize ([] : list (str * list GeoSummary.node_info), [] : list (str * list GeoSummary.node_info), [] : list (value * list GeoSummary.node_info)).
  induction nodes as [|n nodes IH]; intros st; simpl.
  - split; [constructor|by eexists].
  - rewrite Forall_cons. destruct (GeoSummary.analyze_node st n) as [st'|e] eqn:Hn; simpl.
    + rewrite IH. apply analyze_node_Returned in Hn as [Hid _]. tauto.
    + split; [by intros [g ?]|]. intros [Hid _].
      destruct (analyze_node_total st n Hid) as [st' Hst']. congruence.
Qed.

Section grouping_order.
Context {A K V : Type} `{EqDecision K}.
Variables (key : A → K) (val : A → V).

(** The keys of a dictionary of groups stand in the order in which the
    loop first met them. *)
Lemma grouped_keys_first_before l a b :
  first_before (grouped key val l []).*1 a b ↔ first_before (key <$> l) a b.
Proof.
  induction l as [|x l IH] using rev_ind; [done|].
  rewrite grouped_snoc, fmap_app. simpl. rewrite first_before_snoc.
  destruct (decide (key x ∈ (grouped key val l []).*1)) as [Hin|Hout].
  - rewrite dict_append_keys_old, IH by done. split; [by left|].
    intros [?|(-> & Hb & _)]; [done|].
    apply first_before_absent; [|done]. by apply grouped_keys_elem in Hin.
  - rewrite dict_append_keys_new, first_before_snoc, IH by done.
    by rewrite (grouped_keys_elem key val l b).
Qed.
End grouping_order.

Lemma NoDup_fmap_eq {A B} (f : A → B) (l : list A) x y :
  NoDup (f <$> l) → x ∈ l → y ∈ l → f x = f y → x = y.
Proof.
  induction l as [|z l IH]; [by intros _ ?%elem_of_nil|].
  rewrite fmap_cons, NoDup_cons. intros [Hz Hnd] Hx Hy Heq.
  apply elem_of_cons in Hx as [->|Hx]; apply elem_of_cons in Hy as [->|Hy].
  - done.
  - exfalso. apply Hz. rewrite Heq. apply list_elem_of_fmap. by exists y.
  - exfalso. apply Hz. rewrite <- Heq. apply list_elem_of_fmap. by exists x.
  - by apply IH.
Qed.

(** ** The country distribution *)

Lemma truthy_Some (s : str) : truthy (Some s) ↔ s ≠ [].
Proof. by destruct s. Qed.

Lemma country_summary_keys countries :
  (λ e : str * nat * str, e.1.1) <$> GeoSummary.country_summary countries
  = filter (λ c, c ≠ []) countries.*1.
Proof.
  unfold GeoSummary.country_summary.
  induction countries as [|[c g] countries IH]; [done|].
  rewrite fmap_cons, !filter_cons.
  destruct c as [|a c]; simpl; [apply IH|f_equal; apply IH].
Qed.

Lemma country_summary_elem e countries :
  e ∈ GeoSummary.country_summary countries
  ↔ ∃ g, (e.1.1, g) ∈ countries ∧ e.1.1 ≠ [] ∧ e = GeoSummary.country_entry e.1.1 g.
Proof.
  unfold GeoSummary.country_summary. rewrite list_elem_of_fmap. split.
  - intros ([c g] & -> & [Hc Hin]%list_elem_of_filter). simpl in *.
    exists g. by rewrite <- truthy_Some.
  - intros (g & Hin & Hc & He). exists (e.1.1, g). split; [done|].
    apply list_elem_of_filter. by rewrite <- truthy_Some in Hc.
Qed.

Lemma country_entry_count c g :
  (GeoSummary.country_entry c g).1.2 = length g.
Proof. reflexivity. Qed.

Lemma country_entry_eta c g :
  GeoSummary.country_entry c g = (c, length g, (GeoSummary.country_entry c g).2).
Proof. reflexivity. Qed.

(** The entry of a country, with the nodes in violation told by the
    predicate of the specification. *)
Lemma country_entry_equation (country : str) (country_nodes : list GeoSummary.node_info) :
  let violating :=
    filter (λ n, in_violation (GeoSummary.info_violations n)) country_nodes in
  let change_breakdown := Counter (GeoSummary.info_change_type <$> country_nodes) in
  let summary :=
    lit "  " ++ country ++ lit ": " ++ str_of_nat (length country_nodes)
    ++ lit " nodes" in
  GeoSummary.country_entry country country_nodes
  = (country, length country_nodes,
     if decide (1 < length change_breakdown ∨ 0 < length violating)
     then summary ++ lit " ("
          ++ join (lit ", ")
               (((λ entry : value * nat, GeoSummary.icon entry.1 ++ str_of_nat entry.2)
                   <$> filter (λ entry, 0 < entry.2) change_breakdown)
                ++ (if decide (0 < length violating)
                    then [ [0x1F7E1%N] ++ str_of_nat (length violating)
                           ++ lit " violations" ]
                    else []))
          ++ lit ")"
     else summary).
Proof.
  intros violating change_breakdown summary.
  unfold GeoSummary.country_entry. fold change_breakdown.
  assert (GeoSummary.violation_nodes country_nodes = violating) as ->.
  { apply list_filter_iff. intros n. apply in_violation_test. }
  f_equal.
  assert (violating ≠ [] ↔ 0 < length violating) as Hne.
  { destruct violating; simpl; split; [done|lia|intros _; lia|done]. }
  destruct (decide (0 < length violating)) as [Hv|Hv].
  - rewrite (bool_decide_true (violating ≠ [])) by (by apply Hne).
    rewrite orb_true_r. by rewrite decide_True by (by right).
  - rewrite (bool_decide_false (violating ≠ [])) by (by rewrite Hne).
    rewrite orb_false_r, app_nil_r.
    destruct (decide (1 < length change_breakdown)) as [Hb|Hb].
    + rewrite bool_decide_true by done. rewrite decide_True by (by left).
      by rewrite app_nil_r.
    + rewrite bool_decide_false by done. by rewrite decide_False by tauto.
Qed.

(** C7.  When the report is produced, the country section has one line
    for every non-empty country, which begins with the country and the
    number of its nodes; the lines are in descending order of that
    number, and two countries with the same number stand in the order in
    which the input first met them. *)
Theorem countries_by_count_then_encounter
    (nodes : list GeoSummary.node) (g : GeoSummary.groups) :
  GeoSummary.analyze_geographic_distribution nodes = Returned g →
  let listing := GeoSummary.sorted_country_summary g.1.2 in
  GeoSummary.country_lines g.1.2
  = [ [0x1F30E%N] ++ lit " COUNTRY DISTRIBUTION:" ]
    ++ ((λ e : str * nat * str, e.2) <$> listing) ++ [ [] ]
  ∧ (∀ c k, (∃ s, (c, k, s) ∈ listing)
            ↔ c ≠ [] ∧ c ∈ country_of <$> nodes
              ∧ k = length (filter (λ n, country_of n = c) nodes))
  ∧ NoDup ((λ e : str * nat * str, e.1.1) <$> listing)
  ∧ StronglySorted (λ e1 e2 : str * nat * str, e2.1.2 ≤ e1.1.2) listing
  ∧ (∀ e1 e2, e1 ∈ listing → e2 ∈ listing → e1.1.2 = e2.1.2 →
       first_before ((λ e : str * nat * str, e.1.1) <$> listing) e1.1.1 e2.1.1
       ↔ first_before (country_of <$> nodes) e1.1.1 e2.1.1)
  ∧ (∀ e, e ∈ listing →
       ∃ details,
         e.2 = lit "  " ++ e.1.1 ++ lit ": " ++ str_of_nat e.1.2 ++ lit " nodes"
               ++ details
         ∧ (details = [] ∨ ∃ items, details = lit " (" ++ items ++ lit ")")).
Proof.
  intros Hg. apply analyze_Returned in Hg as ->. simpl.
  set (countries := grouped country_of node_info_of nodes []).
  set (count := λ e : str * nat * str, e.1.2).
  set (name := λ e : str * nat * str, e.1.1).
  unfold GeoSummary.sorted_country_summary.
  set (listing := sorted _ (GeoSummary.country_summary countries)).
  assert (listing ≡ₚ GeoSummary.country_summary countries) as Hperm
    by apply (sorted_perm count).
  assert (NoDup (name <$> GeoSummary.country_summary countries)) as Hnd.
  { unfold name. rewrite country_summary_keys. apply NoDup_filter.
    apply grouped_keys_NoDup. }
  split_and!.
  - reflexivity.
  - intros c k. setoid_rewrite Hperm. split.
    + intros (s & (grp & Hin & Hc & He)%country_summary_elem).
      cbn [fst snd] in *.
      assert (c ∈ countries.*1) as Hkey
        by (apply list_elem_of_fmap; by exists (c, grp)).
      apply grouped_elem in Hin as [-> Hne].
      apply (f_equal count) in He. unfold count in He.
      rewrite country_entry_count in He. cbn [fst snd] in He. subst k.
      split_and!; [done| |by unfold members; rewrite length_fmap].
      by apply (grouped_keys_elem country_of node_info_of).
    + intros (Hc & Hin & ->).
      apply (grouped_keys_elem country_of node_info_of) in Hin.
      apply list_elem_of_fmap in Hin as ([c' grp] & -> & Hin). cbn [fst snd] in *.
      exists (GeoSummary.country_entry c' grp).2.
      apply country_summary_elem. cbn [fst snd].
      exists grp. split_and!; [done..|].
      apply grouped_elem in Hin as [-> _].
      etrans; [|symmetry; apply country_entry_eta]. do 2 f_equal.
      unfold members. by rewrite length_fmap.
  - by rewrite Hperm.
  - apply (sorted_descending count).
  - intros e1 e2 He1 He2 Hcount.
    assert (e1 ∈ GeoSummary.country_summary countries) as He1' by (by rewrite <- Hperm).
    assert (e2 ∈ GeoSummary.country_summary countries) as He2' by (by rewrite <- Hperm).
    change e1.1.1 with (name e1). change e2.1.1 with (name e2).
    assert (NoDup (name <$> listing)) as Hnd' by (by rewrite Hperm).
    rewrite first_before_fmap; [|intros x y; by apply NoDup_fmap_eq|done..].
    trans (first_before (GeoSummary.country_summary countries) e1 e2);
      [by apply (sorted_first_before count)|].
    rewrite <- (first_before_fmap name);
      [|intros x y; by apply NoDup_fmap_eq|done..].
    unfold name at 1. rewrite country_summary_keys.
    apply country_summary_elem in He1' as (_ & _ & Hc1 & _).
    apply country_summary_elem in He2' as (_ & _ & Hc2 & _).
    rewrite first_before_filter by done.
    apply grouped_keys_first_before.
  - intros [[c k] s] He.
    assert ((c, k, s) ∈ GeoSummary.country_summary countries) as He'
      by (by rewrite <- Hperm).
    apply country_summary_elem in He' as (grp & _ & _ & Heq).
    change ((c, k, s).1.1) with c in Heq.
    rewrite country_entry_equation in Heq.
    pose proof (f_equal (λ e : str * nat * str, e.1.2) Heq) as Hk.
    pose proof (f_equal (λ e : str * nat * str, e.2) Heq) as Hs.
    cbv [fst snd] in Hk, Hs. clear Heq. subst k.
    change (∃ details,
              s = lit "  " ++ c ++ lit ": " ++ str_of_nat (length grp) ++ lit " nodes"
                  ++ details
              ∧ (details = [] ∨ ∃ items, details = lit " (" ++ items ++ lit ")")).
    case_decide; subst s.
    + eexists. split; [by rewrite <- !app_assoc|]. right. by eexists.
    + exists []. split; [by rewrite !app_nil_r|by left].
Qed.

Lemma countries_by_count_then_encounter_witness :
  StronglySorted (λ e1 e2 : str * nat * str, e2.1.2 ≤ e1.1.2)
    (GeoSummary.sorted_country_summary
       (grouped country_of node_info_of tied_nodes [])).
Proof.
  pose proof (countries_by_count_then_encounter tied_nodes
                (grouped region_key_of node_info_of tied_nodes [],
                 grouped country_of node_info_of tied_nodes [],
                 grouped continent_of node_info_of tied_nodes [])) as H.
  simpl in H. apply H. vm_compute. reflexivity.
Defined.

Example tied_countries_keep_encounter_order :
  (λ e : str * nat * str, e.1)
  <$> GeoSummary.sorted_country_summary (grouped country_of node_info_of tied_nodes [])
  = [(lit "US", 2); (lit "DE", 1); (lit "FR", 1)].
Proof. reflexivity. Qed.

(** ** After loading *)

Lemma analyze_Raised nodes e :
  GeoSummary.analyze_geographic_distribution nodes = Raised e → e = TypeError.
Proof.
  unfold GeoSummary.analyze_geographic_distribution.
  generalize ([] : list (str * list GeoSummary.node_info),
              [] : list (str * list GeoSummary.node_info),
              [] : list (value * list GeoSummary.node_info)).
  induction nodes as [|n nodes IH]; intros st; simpl; [done|].
  destruct (GeoSummary.analyze_node st n) as [st'|e'] eqn:Hn; simpl; [apply IH|].
  intros [= <-]. destruct (GeoSummary.node_id n) as [s|] eqn:Hid.
  - destruct (analyze_node_total st n) as [st' Hst']; [by rewrite Hid|congruence].
  - rewrite (analyze_node_None st n Hid) in Hn. congruence.
Qed.

(** The text report is printed in full or not at all: it is printed when
    every node id is a string, and otherwise the call raises a
    [TypeError] before the first line. *)
Lemma report_complete_or_nothing nodes subnet_id :
  (Forall (λ n, GeoSummary.node_id n ≠ None) nodes
   ∧ ∃ g, GeoSummary.print_geographic_summary nodes subnet_id
          = (GeoSummary.report nodes subnet_id g, Returned ()))
  ∨ (Exists (λ n, GeoSummary.node_id n = None) nodes
     ∧ GeoSummary.print_geographic_summary nodes subnet_id = ([], Raised TypeError)).
Proof.
  unfold GeoSummary.print_geographic_summary.
  destruct (GeoSummary.analyze_geographic_distribution nodes) as [g|e] eqn:Hg.
  - left. split; [|by exists g]. apply analyze_total. by exists g.
  - right. split; [|by rewrite (analyze_Raised _ _ Hg)].
    assert (¬ Forall (λ n, GeoSummary.node_id n ≠ None) nodes) as Hnot.
    { intros Hall. apply analyze_total in Hall as [g' Hg']. congruence. }
    apply not_Forall_Exists in Hnot; [|apply _].
    eapply Exists_impl; [done|]. simpl. intros n Hn.
    destruct (GeoSummary.node_id n); [exfalso; by apply Hn|done].
Qed.

(** The loader of the map variant skips every row that has no
    [gps_latitude] or [gps_longitude] value, and raises on no row. *)
Lemma map_row_skipped_iff {float} (py_float : str → option float) row :
  (∃ e, SubnetMap.read_row py_float row = Raised e)
  ↔ Csv.get row "gps_latitude" "" = None ∨ Csv.get row "gps_longitude" "" = None.
Proof.
  unfold SubnetMap.read_row.
  destruct (map_parse_region_total (Csv.get row "dc_region" "")) as [[c y] ->].
  simpl. destruct (Csv.get row "gps_latitude" "") as [lat|]; simpl.
  - destruct (Csv.get row "gps_longitude" "") as [lon|]; simpl.
    + split; [by intros [e ?]|by intros [|]].
    + split; [by right|by eexists].
  - split; [by left|by eexists].
Qed.

(** C9.  A row shorter than the header leaves [None] in the fields it
    lacks.  The text loader passes such a record on, and the text report
    raises on it: the pipeline after loading is not total. *)
Theorem short_row_aborts_text_report :
  GeoSummary.read_subnet_data short_row_csv
  = [ GeoSummary.Node None (Some (lit "")) (Some (lit "")) (Some (lit "NA"))
        (Some (lit "UNCHANGED")) (Some (lit "")) (Some (lit "")) ]
  ∧ GeoSummary.print_geographic_summary
      (GeoSummary.read_subnet_data short_row_csv) (lit "")
    = ([], Raised TypeError)
  ∧ GeoSummary.main (lit "subnet_full_audit.csv") (Some short_row_csv) (lit "")
    = ([], Raised TypeError).
Proof. repeat split; reflexivity. Qed.

(** * Further properties of the two scripts *)

(** ** Records and rows *)

Section dict_set_order.
Context {K V : Type} `{EqDecision K}.

(** A sequence of assignments leaves under [k] the last value assigned
    to it. *)
Lemma dict_get_fold_set_last {B} (f : B → K) (g : B → V) (l : list B) d k :
  dict_get (fold_left (λ d x, dict_set d (f x) (g x)) l d) k
  = match last (g <$> filter (λ x, f x = k) l) with
    | Some v => Some v
    | None => dict_get d k
    end.
Proof.
  revert d. induction l as [|x l IH]; intros d; [done|].
  simpl fold_left. rewrite IH, dict_get_set, filter_cons.
  destruct (decide (f x = k)) as [Hx|Hx].
  - rewrite fmap_cons, last_cons.
    destruct (last (g <$> filter (λ x, f x = k) l)); [done|].
    by rewrite decide_True.
  - destruct (last (g <$> filter (λ x, f x = k) l)); [done|].
    by rewrite decide_False by done.
Qed.
End dict_set_order.

Lemma filter_none {A} (P : A → Prop) `{!∀ x, Decision (P x)} (l : list A) :
  (∀ x, x ∈ l → ¬ P x) → filter P l = [].
Proof.
  induction l as [|x l IH]; intros Hl; [done|].
  rewrite filter_cons, decide_False by (apply Hl; left).
  apply IH. intros y Hy. apply Hl. by right.
Qed.

Lemma last_fmap_const {A B} (c : B) (l : list A) :
  l ≠ [] → last ((λ _, c) <$> l) = Some c.
Proof.
  intros Hl. rewrite fmap_last. destruct (last l) eqn:Hlast; [done|].
  by apply last_None in Hlast.
Qed.

Lemma filter_zip_absent (k : str) (post : list str) (r : list str) :
  k ∉ post → filter (λ kv : str * str, kv.1 = k) (zip post r) = [].
Proof.
  intros Hk. apply filter_none.
  intros [k' v] Hin Heq. simpl in Heq. subst k'. by apply elem_of_zip_l in Hin.
Qed.

(** The value a row holds for a column, by the last position at which
    the header names the column. *)
Lemma DictReader_row_position (pre post : list str) (k : str) (r : list str) :
  k ∉ post →
  dict_get (Csv.DictReader_row (pre ++ k :: post) r) k = Some (r !! length pre).
Proof.
  intros Hk. unfold Csv.DictReader_row.
  rewrite (dict_get_fold_set_last id (λ _, None)).
  rewrite (dict_get_fold_set_last fst (λ kv : str * str, Some kv.2)).
  destruct (decide (length pre < length r)) as [Hlt|Hge].
  - (* the row reaches the column *)
    rewrite drop_app_ge by lia.
    assert (∃ m, length r - length pre = S m) as [m Hm] by (exists (length r - length pre - 1); lia).
    rewrite Hm. simpl drop.
    rewrite (filter_none _ (drop m post)); last first.
    { intros k' Hin Heq. simpl in Heq. subst k'. apply Hk. by apply (subseteq_drop m). }
    simpl. destruct (lookup_lt_is_Some_2 r (length pre) Hlt) as [v Hv].
    rewrite Hv, <- (take_drop_middle r (length pre) v Hv).
    assert (length pre = length (take (length pre) r)) as Hlen
      by (rewrite length_take; lia).
    rewrite (zip_with_app _ _ _ _ _ Hlen).
    simpl. rewrite filter_app, filter_cons, decide_True by done.
    rewrite (filter_zip_absent k post) by done.
    by rewrite fmap_app, fmap_cons, fmap_nil, last_snoc.
  - rewrite lookup_ge_None_2 by lia.
    rewrite drop_app_le by lia.
    rewrite filter_app, filter_cons, decide_True by done.
    rewrite last_fmap_const; [done|]. by intros [_ ?]%app_eq_nil.
Qed.

Lemma read_subnet_data_rows (csv_file : list (list str)) :
  GeoSummary.read_subnet_data csv_file
  = (λ r, let row := Csv.DictReader_row (default [] (head csv_file)) r in
          GeoSummary.Node
            (Csv.get row "node_id" "") (Csv.get row "node_operator_dc" "")
            (Csv.get row "dc_owner" "") (Csv.get row "dc_region" "")
            (Csv.get row "change_type" "UNCHANGED")
            (Csv.get row "constraint_violation" "") (Csv.get row "reward_region" ""))
    <$> data_rows csv_file.
Proof.
  destruct csv_file as [|fieldnames rows]; [done|].
  unfold GeoSummary.read_subnet_data, data_rows. simpl.
  by rewrite <- list_fmap_compose.
Qed.

Lemma text_column_get col dflt proj (row : list (str * value)) :
  (col, dflt, proj) ∈ text_columns →
  proj (GeoSummary.Node
          (Csv.get row "node_id" "") (Csv.get row "node_operator_dc" "")
          (Csv.get row "dc_owner" "") (Csv.get row "dc_region" "")
          (Csv.get row "change_type" "UNCHANGED")
          (Csv.get row "constraint_violation" "") (Csv.get row "reward_region" ""))
  = Csv.get row col dflt.
Proof.
  unfold text_columns. intros Hin.
  repeat (apply elem_of_cons in Hin as [[= -> -> ->]|Hin]; [done|]).
  by apply elem_of_nil in Hin.
Qed.

(** X1.  The text loader turns the non-blank data rows into records, one
    for one and in order.  A field whose column the header does not name
    takes its default; otherwise it is the row's field at the last
    position where the header names the column, and [None] when the row
    is too short to reach that position. *)
Theorem text_record_fields (fieldnames : list str) (rows : list (list str))
    (i : nat) (r : list str) (n : GeoSummary.node) col dflt proj :
  data_rows (fieldnames :: rows) !! i = Some r →
  GeoSummary.read_subnet_data (fieldnames :: rows) !! i = Some n →
  (col, dflt, proj) ∈ text_columns →
  length (GeoSummary.read_subnet_data (fieldnames :: rows))
  = length (data_rows (fieldnames :: rows))
  ∧ (lit col ∉ fieldnames → proj n = Some (lit dflt))
  ∧ (∀ pre post, fieldnames = pre ++ lit col :: post → lit col ∉ post →
       proj n = r !! length pre).
Proof.
  intros Hr Hn Hcol. rewrite read_subnet_data_rows in Hn |- *.
  rewrite list_lookup_fmap, Hr in Hn. simpl in Hn. injection Hn as <-.
  rewrite (text_column_get _ _ _ _ Hcol). split_and!.
  - by rewrite length_fmap.
  - apply get_absent_column.
  - intros pre post -> Hpost. unfold Csv.get.
    by rewrite DictReader_row_position.
Qed.

Lemma text_record_fields_witness :
  GeoSummary.dc_region
    (GeoSummary.Node (Some (lit "n1")) (Some (lit "")) (Some (lit ""))
       None (Some (lit "UNCHANGED")) (Some (lit "")) (Some (lit "")))
  = [lit "n1"] !! 1.
Proof.
  destruct (text_record_fields [lit "node_id"; lit "dc_region"] [[lit "n1"]] 0
              [lit "n1"] _ "dc_region" "" GeoSummary.dc_region
              eq_refl eq_refl) as (_ & _ & H).
  - unfold text_columns. rewrite !elem_of_cons. tauto.
  - apply (H [lit "node_id"] []); [reflexivity|apply not_elem_of_nil].
Defined.

(** A row that is at least as long as the header holds a string under
    every column of the header. *)
Lemma DictReader_row_full (fieldnames r : list str) (k : str) v :
  length fieldnames ≤ length r →
  dict_get (Csv.DictReader_row fieldnames r) k = Some v → v ≠ None.
Proof.
  intros Hlen. unfold Csv.DictReader_row.
  rewrite (dict_get_fold_set_last id (λ _, None)).
  rewrite (dict_get_fold_set_last fst (λ kv : str * str, Some kv.2)).
  rewrite drop_ge by done. rewrite filter_nil. simpl.
  rewrite fmap_last. destruct (last _) as [kv|]; simpl; [|done].
  by intros [= <-].
Qed.

Lemma get_full_row (fieldnames r : list str) (k dflt : string) :
  length fieldnames ≤ length r →
  Csv.get (Csv.DictReader_row fieldnames r) k dflt ≠ None.
Proof.
  intros Hlen. unfold Csv.get.
  destruct (dict_get _ _) as [v|] eqn:Hget; simpl; [|done].
  by eapply DictReader_row_full.
Qed.

Lemma read_subnet_data_nil (csv_file : list (list str)) :
  GeoSummary.read_subnet_data csv_file = [] ↔ data_rows csv_file = [].
Proof.
  rewrite read_subnet_data_rows. split; [apply fmap_nil_inv|by intros ->].
Qed.

(** X2.  When every non-blank data row has at least as many fields as
    the header, every field of every record is a string, the analysis
    returns, and [main] prints the whole report and exits with 0. *)
Theorem full_rows_give_full_report (input_path subnet_id : str)
    (fieldnames : list str) (rows : list (list str)) :
  Forall (λ r, r = [] ∨ length fieldnames ≤ length r) rows →
  data_rows (fieldnames :: rows) ≠ [] →
  let nodes := GeoSummary.read_subnet_data (fieldnames :: rows) in
  (∀ n col dflt proj, n ∈ nodes → (col, dflt, proj) ∈ text_columns → proj n ≠ None)
  ∧ ∃ g, GeoSummary.analyze_geographic_distribution nodes = Returned g
         ∧ GeoSummary.main input_path (Some (fieldnames :: rows)) subnet_id
           = (GeoSummary.report nodes subnet_id g, Returned 0).
Proof.
  intros Hrows Hdata nodes.
  assert (∀ n col dflt proj, n ∈ nodes → (col, dflt, proj) ∈ text_columns →
            proj n ≠ None) as Hfields.
  { intros n col dflt proj Hn Hcol. unfold nodes in Hn.
    rewrite read_subnet_data_rows in Hn.
    apply list_elem_of_fmap in Hn as (r & -> & Hr).
    rewrite (text_column_get _ _ _ _ Hcol). simpl.
    apply get_full_row. unfold data_rows in Hr. simpl in Hr.
    apply list_elem_of_filter in Hr as [Hne Hr].
    rewrite Forall_forall in Hrows. by destruct (Hrows r Hr). }
  split; [done|].
  assert (Forall (λ n, GeoSummary.node_id n ≠ None) nodes) as Hids.
  { apply Forall_forall. intros n Hn.
    apply (Hfields n "node_id"%string ""%string GeoSummary.node_id Hn).
    unfold text_columns. left. }
  apply analyze_total in Hids as [g Hg]. exists g. split; [done|].
  unfold GeoSummary.main. fold nodes.
  rewrite bool_decide_false by (unfold nodes; by rewrite read_subnet_data_nil).
  unfold GeoSummary.print_geographic_summary. by rewrite Hg.
Qed.

Lemma full_rows_give_full_report_witness :
  ∃ g, GeoSummary.main (lit "audit.csv")
         (Some [ [lit "node_id"; lit "dc_region"]; []; [lit "n1"; lit "EU,DE"; lit "x"] ])
         (lit "")
       = (GeoSummary.report
            (GeoSummary.read_subnet_data
               [ [lit "node_id"; lit "dc_region"]; []; [lit "n1"; lit "EU,DE"; lit "x"] ])
            (lit "") g, Returned 0).
Proof.
  destruct (full_rows_give_full_report (lit "audit.csv") (lit "")
              [lit "node_id"; lit "dc_region"] [ []; [lit "n1"; lit "EU,DE"; lit "x"] ])
    as (_ & g & _ & Hmain).
  - apply Forall_cons. split; [by left|].
    apply Forall_cons. split; [right; simpl; lia|apply Forall_nil_2].
  - vm_compute. discriminate.
  - by exists g.
Defined.

(** [main] on the rows of a file that was read. *)
Lemma text_main_on_rows (input_path subnet_id : str) (csv_file : list (list str)) :
  let nodes := GeoSummary.read_subnet_data csv_file in
  let run := GeoSummary.main input_path (Some csv_file) subnet_id in
  (run.2 = Returned 1 ↔ data_rows csv_file = [])
  ∧ (run.2 = Returned 1 → run.1 = [ lit "No nodes found in input file" ])
  ∧ (run.2 = Returned 0
     ↔ data_rows csv_file ≠ [] ∧ Forall (λ n, GeoSummary.node_id n ≠ None) nodes)
  ∧ (run.2 = Returned 0 → ∃ g, run.1 = GeoSummary.report nodes subnet_id g)
  ∧ (run.2 = Raised TypeError ↔ Exists (λ n, GeoSummary.node_id n = None) nodes)
  ∧ (run.2 = Raised TypeError → run.1 = [])
  ∧ (run.2 = Returned 1 ∨ run.2 = Returned 0 ∨ run.2 = Raised TypeError).
Proof.
  intros nodes run. unfold run, GeoSummary.main. fold nodes.
  pose proof (read_subnet_data_nil csv_file) as Hnil. fold nodes in Hnil.
  case_bool_decide as Hnodes.
  - apply Hnil in Hnodes as Hrows. rewrite Hnodes. simpl. split_and!; try done.
    + split; [done|]. by intros [? _].
    + split; [done|]. by intros ?%Exists_nil.
    + by left.
  - assert (data_rows csv_file ≠ []) as Hrows by (by rewrite <- Hnil).
    destruct (report_complete_or_nothing nodes subnet_id) as [[Hids [g ->]]|[Hex ->]];
      simpl; split_and!; try done.
    + intros _. by exists g.
    + split; [done|]. intros Hex. apply Exists_exists in Hex as (n & Hn & Hid).
      rewrite Forall_forall in Hids. by destruct (Hids n Hn).
    + right. by left.
    + split; [done|]. intros [_ Hids]. apply Exists_exists in Hex as (n & Hn & Hid).
      rewrite Forall_forall in Hids. by destruct (Hids n Hn).
    + right. by right.
Qed.

(** X3.  How [main] of the text script ends tells what happened.  It
    returns 1 exactly when the input is missing, with the line that says
    so, or was read and has no non-blank data row, with the single line
    "No nodes found"; it returns 0, with the whole report, exactly when
    the input was read, has records and every node id is a string; a
    [TypeError] leaves it uncaught exactly when the input was read and
    some record has no node id; and the error of the read leaves it
    uncaught exactly when reading the input raises.  A run that ends in
    an uncaught error has printed nothing, and there is no other
    ending. *)
Theorem text_main_exit (input_path subnet_id : str) (input : Process.input_file) :
  let run := GeoSummaryProcess.main input_path input subnet_id in
  (run.2 = Process.Exit 1
   ↔ input = Process.Missing
     ∨ ∃ csv_file, input = Process.Readable csv_file ∧ data_rows csv_file = [])
  ∧ (input = Process.Missing
     → run.1 = [ lit "Error: Input file " ++ input_path ++ lit " not found" ])
  ∧ (∀ csv_file, input = Process.Readable csv_file → run.2 = Process.Exit 1
       → run.1 = [ lit "No nodes found in input file" ])
  ∧ (run.2 = Process.Exit 0
     ↔ ∃ csv_file, input = Process.Readable csv_file ∧ data_rows csv_file ≠ []
                   ∧ Forall (λ n, GeoSummary.node_id n ≠ None)
                            (GeoSummary.read_subnet_data csv_file))
  ∧ (∀ csv_file, input = Process.Readable csv_file → run.2 = Process.Exit 0
       → ∃ g, run.1
              = GeoSummary.report (GeoSummary.read_subnet_data csv_file) subnet_id g)
  ∧ (run.2 = Process.Uncaught (Process.Exception TypeError)
     ↔ ∃ csv_file, input = Process.Readable csv_file
                   ∧ Exists (λ n, GeoSummary.node_id n = None)
                            (GeoSummary.read_subnet_data csv_file))
  ∧ (run.2 = Process.Uncaught Process.ReadFailed
     ↔ ∃ rows_read, input = Process.Unreadable rows_read)
  ∧ (∀ f, run.2 = Process.Uncaught f → run.1 = [])
  ∧ (run.2 = Process.Exit 1 ∨ run.2 = Process.Exit 0
     ∨ run.2 = Process.Uncaught (Process.Exception TypeError)
     ∨ run.2 = Process.Uncaught Process.ReadFailed).
Proof.
  intros run. unfold run, GeoSummaryProcess.main.
  destruct input as [|csv_file|rows_read]; cbn [fst snd].
  - simpl. split_and!; try done.
    + split; [by left|done].
    + split; [done|]. by intros (? & ? & _).
    + split; [done|]. by intros (? & ? & _).
    + split; [done|]. by intros (? & ?).
    + by left.
  - destruct (text_main_on_rows input_path subnet_id csv_file)
      as (H1 & H1out & H0 & H0out & HT & HTout & Hall).
    cbv zeta in H1, H1out, H0, H0out, HT, HTout, Hall.
    destruct (GeoSummary.main input_path (Some csv_file) subnet_id) as [out r].
    cbn [fst snd] in *.
    destruct Hall as [->|[->| ->]]; cbn [Process.ending_of]; split_and!; try done.
    + split; [|done]. intros _. right. exists csv_file. split; [done|]. by apply H1.
    + intros csv [= <-] _. by apply H1out.
    + split; [done|]. intros (csv & [= <-] & Hrows & Hids).
      assert (Returned 1 = Returned 0) as [=]. by apply H0.
    + split; [done|]. intros (csv & [= <-] & Hex).
      assert (Returned 1 = Raised TypeError) as [=]. by apply HT.
    + split; [done|]. by intros (? & ?).
    + by left.
    + split; [done|]. intros [?|(csv & [= <-] & Hrows)]; [done|].
      assert (Returned 0 = Returned 1) as [=]. by apply H1.
    + split; [|done]. intros _. exists csv_file. split; [done|]. by apply H0.
    + intros csv [= <-] _. by apply H0out.
    + split; [done|]. intros (csv & [= <-] & Hex).
      assert (Returned 0 = Raised TypeError) as [=]. by apply HT.
    + split; [done|]. by intros (? & ?).
    + right. by left.
    + split; [done|]. intros [?|(csv & [= <-] & Hrows)]; [done|].
      assert (Raised (A := nat) TypeError = Returned 1) as [=]. by apply H1.
    + split; [done|]. intros (csv & [= <-] & Hrows & Hids).
      assert (Raised (A := nat) TypeError = Returned 0) as [=]. by apply H0.
    + split; [|done]. intros _. exists csv_file. split; [done|]. by apply HT.
    + split; [done|]. by intros (? & ?).
    + intros f _. by apply HTout.
    + right. right. by left.
  - split_and!; try done.
    + split; [done|]. by intros [?|(? & ? & _)].
    + split; [done|]. by intros (? & ? & _).
    + split; [done|]. by intros (? & ? & _).
    + split; [|done]. intros _. by eexists.
    + right. right. by right.
Qed.

Lemma text_main_exit_witness :
  (GeoSummaryProcess.main (lit "audit.csv") (Process.Readable short_row_csv) (lit "")).1
  = [].
Proof.
  destruct (text_main_exit (lit "audit.csv") (lit "") (Process.Readable short_row_csv))
    as (_ & _ & _ & _ & _ & _ & _ & H & _).
  apply (H (Process.Exception TypeError)). reflexivity.
Defined.

(** ** What the groupings keep *)

Section grouping_members.
Context {A K V : Type} `{EqDecision K}.
Variables (key : A → K) (val : A → V).
Variable P : K → Prop.
Context `{!∀ k, Decision (P k)}.

Lemma dict_append_selected (d : list (K * list V)) k v :
  concat (filter (λ kv, P kv.1) (dict_append d k v)).*2
  ≡ₚ concat (filter (λ kv, P kv.1) d).*2 ++ (if decide (P k) then [v] else []).
Proof.
  induction d as [|[k0 vs] d IH]; simpl.
  - rewrite filter_cons, filter_nil. simpl. case_decide; simpl; by rewrite ?app_nil_r.
  - destruct (decide (k = k0)) as [->|Hne].
    + rewrite !filter_cons. simpl. destruct (decide (P k0)); simpl.
      * rewrite <- !app_assoc. f_equiv. apply Permutation_app_comm.
      * by rewrite ?app_nil_r.
    + rewrite !filter_cons. simpl. destruct (decide (P k0)); simpl; [|done].
      by rewrite IH, app_assoc.
Qed.

(** The groups whose key satisfies [P] hold, between them, each input
    element whose key satisfies [P] exactly once. *)
Lemma grouped_selected l :
  concat (filter (λ kv, P kv.1) (grouped key val l [])).*2
  ≡ₚ val <$> filter (λ x, P (key x)) l.
Proof.
  induction l as [|x l IH] using rev_ind; [done|].
  rewrite grouped_snoc, dict_append_selected, IH, filter_app, fmap_app.
  f_equiv. rewrite filter_cons, filter_nil. by case_decide.
Qed.
End grouping_members.

Lemma filter_all {A} (l : list A) : filter (λ _, True) l = l.
Proof. induction l as [|x l IH]; [done|]. by rewrite filter_cons, IH. Qed.

Lemma grouped_all {A K V} `{EqDecision K} (key : A → K) (val : A → V) l :
  concat (grouped key val l []).*2 ≡ₚ val <$> l.
Proof.
  pose proof (grouped_selected key val (λ _, True) l) as Hsel.
  by rewrite !filter_all in Hsel.
Qed.

Lemma length_concat_sum {A} (ls : list (list A)) :
  length (concat ls) = sum_list_with length ls.
Proof. induction ls as [|l ls IH]; simpl; [done|]. by rewrite length_app, IH. Qed.

Lemma sum_list_with_fmap {A B} (f : B → nat) (g : A → B) (l : list A) :
  sum_list_with f (g <$> l) = sum_list_with (f ∘ g) l.
Proof. induction l as [|x l IH]; simpl; [done|]. f_equal. apply IH. Qed.

(** X5.  When the analysis returns, each of its three dictionaries holds
    every node exactly once: the groups by region key, by country and by
    continent are each a rearrangement of the node list. *)
Theorem analysis_groups_partition (nodes : list GeoSummary.node) (g : GeoSummary.groups) :
  GeoSummary.analyze_geographic_distribution nodes = Returned g →
  concat g.1.1.*2 ≡ₚ node_info_of <$> nodes
  ∧ concat g.1.2.*2 ≡ₚ node_info_of <$> nodes
  ∧ concat g.2.*2 ≡ₚ node_info_of <$> nodes
  ∧ NoDup g.1.1.*1 ∧ NoDup g.1.2.*1 ∧ NoDup g.2.*1.
Proof.
  intros ->%analyze_Returned. simpl.
  split_and!; apply grouped_all || apply grouped_keys_NoDup.
Qed.

Lemma analysis_groups_partition_witness :
  concat (grouped country_of node_info_of tied_nodes []).*2
  ≡ₚ node_info_of <$> tied_nodes.
Proof.
  pose proof (analysis_groups_partition tied_nodes
                (grouped region_key_of node_info_of tied_nodes [],
                 grouped country_of node_info_of tied_nodes [],
                 grouped continent_of node_info_of tied_nodes [])) as H.
  simpl in H. apply H. vm_compute. reflexivity.
Defined.

(** X6.  The structural groupings hold every node that is not REMOVED
    exactly once, under its [dc_id] and under its [dc_owner], and no
    REMOVED node at all. *)
Theorem constraint_groups_partition (nodes : list GeoSummary.node) :
  concat (GeoSummary.datacenters nodes).*2
  ≡ₚ filter (λ n, GeoSummary.change_type n ≠ Some (lit "REMOVED")) nodes
  ∧ concat (GeoSummary.owners nodes).*2
    ≡ₚ filter (λ n, GeoSummary.change_type n ≠ Some (lit "REMOVED")) nodes
  ∧ NoDup (GeoSummary.datacenters nodes).*1
  ∧ NoDup (GeoSummary.owners nodes).*1
  ∧ (∀ k grp n, (k, grp) ∈ GeoSummary.datacenters nodes → n ∈ grp →
       GeoSummary.dc_id n = k ∧ GeoSummary.change_type n ≠ Some (lit "REMOVED"))
  ∧ (∀ k grp n, (k, grp) ∈ GeoSummary.owners nodes → n ∈ grp →
       GeoSummary.dc_owner n = k ∧ GeoSummary.change_type n ≠ Some (lit "REMOVED")).
Proof.
  unfold GeoSummary.datacenters, GeoSummary.owners.
  rewrite constraint_groups_grouped. simpl.
  split_and!.
  - rewrite grouped_all. by rewrite list_fmap_id.
  - rewrite grouped_all. by rewrite list_fmap_id.
  - apply grouped_keys_NoDup.
  - apply grouped_keys_NoDup.
  - intros k grp n [-> _]%grouped_elem Hn. rewrite members_active in Hn.
    apply list_elem_of_filter in Hn. tauto.
  - intros k grp n [-> _]%grouped_elem Hn. rewrite members_active in Hn.
    apply list_elem_of_filter in Hn. tauto.
Qed.

Lemma constraint_groups_partition_witness :
  GeoSummary.dc_id (sample_node "n1" "dc1" "A" "ADDED") = Some (lit "dc1").
Proof.
  destruct (constraint_groups_partition [sample_node "n1" "dc1" "A" "ADDED"])
    as (_ & _ & _ & _ & H & _).
  apply (H (Some (lit "dc1")) [sample_node "n1" "dc1" "A" "ADDED"]).
  - vm_compute. left.
  - left.
Defined.

(** ** Counts *)

Section counter_facts.
Context {K : Type} `{EqDecision K}.

Lemma counter_incr_append (d : list (K * list K)) k :
  counter_incr ((λ kv, (kv.1, length kv.2)) <$> d) k
  = (λ kv, (kv.1, length kv.2)) <$> dict_append d k k.
Proof.
  induction d as [|[k0 vs] d IH]; [done|].
  rewrite fmap_cons. simpl. case_decide; simpl.
  - rewrite length_app. simpl. do 2 f_equal. lia.
  - f_equal. apply IH.
Qed.

(** A [Counter] is the dictionary of groups with each group replaced by
    its size. *)
Lemma Counter_grouped (ks : list K) :
  Counter ks = (λ kv, (kv.1, length kv.2)) <$> grouped id id ks [].
Proof.
  unfold Counter, grouped.
  assert (∀ d : list (K * list K),
    fold_left counter_incr ks ((λ kv, (kv.1, length kv.2)) <$> d)
    = (λ kv, (kv.1, length kv.2))
      <$> fold_left (λ d x, dict_append d (id x) (id x)) ks d) as Hfold;
    [|apply (Hfold [])].
  induction ks as [|k ks IH]; intros d; [done|].
  simpl. rewrite counter_incr_append. apply IH.
Qed.

Lemma Counter_elem (ks : list K) k c :
  (k, c) ∈ Counter ks ↔ c = length (filter (λ x, x = k) ks) ∧ 0 < c.
Proof.
  rewrite Counter_grouped, list_elem_of_fmap. split.
  - intros ([k' grp] & [= -> ->] & [-> Hne]%grouped_elem). simpl.
    unfold members in *. rewrite list_fmap_id in *. split; [done|].
    destruct (filter _ ks); simpl; [done|lia].
  - intros [-> Hpos]. exists (k, members id id k ks). simpl. split.
    + unfold members. by rewrite list_fmap_id.
    + apply grouped_elem. split; [done|]. unfold members.
      rewrite list_fmap_id. intros Hnil.
      change (filter (λ x, id x = k) ks) with (filter (λ x, x = k) ks) in Hnil.
      rewrite Hnil in Hpos. simpl in Hpos. lia.
Qed.

Lemma Counter_keys (ks : list K) : (Counter ks).*1 = (grouped id id ks []).*1.
Proof. rewrite Counter_grouped, <- list_fmap_compose. done. Qed.

Lemma Counter_total (ks : list K) : sum_list_with snd (Counter ks) = length ks.
Proof.
  rewrite Counter_grouped, sum_list_with_fmap.
  rewrite <- (length_fmap id ks), <- (grouped_all id id ks), length_concat_sum.
  by rewrite sum_list_with_fmap.
Qed.
End counter_facts.

Lemma violation_count_spec (nodes : list GeoSummary.node) :
  GeoSummary.violation_count nodes
  = length (filter (λ n, in_violation (GeoSummary.constraint_violation n)) nodes).
Proof.
  unfold GeoSummary.violation_count. f_equal.
  apply list_filter_iff. intros n. apply in_violation_test.
Qed.

(** The lines of the change summary, with the nodes in violation told by
    the predicate of the specification. *)
Lemma change_summary_equation (nodes : list GeoSummary.node) :
  let count :=
    length (filter (λ n, in_violation (GeoSummary.constraint_violation n)) nodes) in
  GeoSummary.change_summary_lines nodes
  = [ [0x1F4CA%N] ++ lit " CHANGE SUMMARY:" ]
    ++ ((λ entry : value * nat,
           lit "  " ++ GeoSummary.icon entry.1 ++ lit " " ++ fmt entry.1 ++ lit ": "
           ++ str_of_nat entry.2 ++ lit " nodes")
          <$> Counter (GeoSummary.change_type <$> nodes))
    ++ (if decide (0 < count)
        then [ lit "  " ++ [0x1F7E1%N] ++ lit " VIOLATIONS: " ++ str_of_nat count
               ++ lit " nodes" ]
        else [])
    ++ [ [] ].
Proof.
  intros count. unfold GeoSummary.change_summary_lines.
  rewrite violation_count_spec. fold count.
  destruct (decide (0 < count)).
  - by rewrite bool_decide_true.
  - by rewrite bool_decide_false.
Qed.

(** X7.  The change summary is its heading, then one line for each
    change type that occurs, in the order in which the input first shows
    them, then the line of the violations when there are any, then a
    blank line.  The line of a change type reads its marker, the change
    type and the number of nodes of that change type; the numbers add up
    to the total number of nodes. *)
Theorem change_summary_counts (nodes : list GeoSummary.node) :
  let change_counts := Counter (GeoSummary.change_type <$> nodes) in
  NoDup change_counts.*1
  ∧ (∀ ct c, (ct, c) ∈ change_counts
             ↔ c = length (filter (λ n, GeoSummary.change_type n = ct) nodes) ∧ 0 < c)
  ∧ sum_list_with snd change_counts = length nodes
  ∧ (∀ a b, first_before change_counts.*1 a b
            ↔ first_before (GeoSummary.change_type <$> nodes) a b)
  ∧ (∀ entry, entry ∈ change_counts
              → GeoSummary.change_line entry ∈ GeoSummary.change_summary_lines nodes)
  ∧ GeoSummary.change_summary_lines nodes
    = [ [0x1F4CA%N] ++ lit " CHANGE SUMMARY:" ]
      ++ ((λ entry : value * nat,
             lit "  " ++ GeoSummary.icon entry.1 ++ lit " " ++ fmt entry.1 ++ lit ": "
             ++ str_of_nat entry.2 ++ lit " nodes")
            <$> change_counts)
      ++ (if decide (0 < GeoSummary.violation_count nodes)
          then [ lit "  " ++ [0x1F7E1%N] ++ lit " VIOLATIONS: "
                 ++ str_of_nat (GeoSummary.violation_count nodes) ++ lit " nodes" ]
          else [])
      ++ [ [] ]
  ∧ (∀ ct c,
       (ct, c) ∈ change_counts →
       lit "  " ++ GeoSummary.icon ct ++ lit " " ++ fmt ct ++ lit ": "
       ++ str_of_nat (length (filter (λ n, GeoSummary.change_type n = ct) nodes))
       ++ lit " nodes"
       ∈ GeoSummary.change_summary_lines nodes).
Proof.
  assert (∀ ct c, (ct, c) ∈ Counter (GeoSummary.change_type <$> nodes)
                  ↔ c = length (filter (λ n, GeoSummary.change_type n = ct) nodes)
                    ∧ 0 < c) as Hcount.
  { intros ct c. rewrite Counter_elem.
    assert (length (filter (λ x, x = ct) (GeoSummary.change_type <$> nodes))
            = length (filter (λ n, GeoSummary.change_type n = ct) nodes)) as ->; [|done].
    clear c. induction nodes as [|n nodes IH]; [done|].
    rewrite fmap_cons, !filter_cons. case_decide; simpl; by rewrite IH. }
  simpl. split_and!.
  - rewrite Counter_keys. apply grouped_keys_NoDup.
  - apply Hcount.
  - by rewrite Counter_total, length_fmap.
  - intros a b. rewrite Counter_keys, grouped_keys_first_before.
    by rewrite list_fmap_id.
  - intros entry Hin. unfold GeoSummary.change_summary_lines.
    rewrite !elem_of_app. right. left. apply list_elem_of_fmap. by exists entry.
  - rewrite change_summary_equation, <- violation_count_spec. done.
  - intros ct c Hin. rewrite change_summary_equation.
    rewrite !elem_of_app. right. left. apply list_elem_of_fmap.
    exists (ct, c). split; [|done].
    apply Hcount in Hin as [-> _]. done.
Qed.

Lemma change_summary_counts_witness :
  GeoSummary.change_line (Some (lit "UNCHANGED"), 4)
  ∈ GeoSummary.change_summary_lines tied_nodes.
Proof.
  destruct (change_summary_counts tied_nodes) as (_ & _ & _ & _ & H & _).
  apply H. vm_compute. left.
Defined.

(** X8.  When the report is produced, the counts of the country section
    add up to the number of nodes whose region carries a country: a node
    without a country is counted on no country line, every other node on
    exactly one. *)
Theorem country_counts_total (nodes : list GeoSummary.node) (g : GeoSummary.groups) :
  GeoSummary.analyze_geographic_distribution nodes = Returned g →
  sum_list_with (λ e : str * nat * str, e.1.2) (GeoSummary.sorted_country_summary g.1.2)
  = length (filter (λ n, country_of n ≠ []) nodes).
Proof.
  intros ->%analyze_Returned. simpl.
  unfold GeoSummary.sorted_country_summary.
  rewrite (sorted_perm (λ e : str * nat * str, e.1.2)).
  unfold GeoSummary.country_summary. rewrite sum_list_with_fmap.
  rewrite <- (length_fmap node_info_of (filter _ nodes)).
  pose proof (grouped_selected country_of node_info_of (λ c, c ≠ []) nodes) as Hsel.
  cbv beta in Hsel. rewrite <- Hsel.
  rewrite length_concat_sum, sum_list_with_fmap.
  assert (∀ d : list (str * list GeoSummary.node_info),
            filter (λ kv, truthy (Some kv.1)) d = filter (λ kv, kv.1 ≠ []) d) as ->.
  { intros d. apply list_filter_iff. intros kv. apply truthy_Some. }
  done.
Qed.

Lemma country_counts_total_witness :
  sum_list_with (λ e : str * nat * str, e.1.2)
    (GeoSummary.sorted_country_summary (grouped country_of node_info_of tied_nodes []))
  = length (filter (λ n, country_of n ≠ []) tied_nodes).
Proof.
  apply (country_counts_total tied_nodes
           (grouped region_key_of node_info_of tied_nodes [],
            grouped country_of node_info_of tied_nodes [],
            grouped continent_of node_info_of tied_nodes [])).
  vm_compute. reflexivity.
Defined.

(** ** Order of strings, and [sorted] in general *)







Section sorted_facts.
Context {A : Type} (before : A → A → bool).

Lemma sorted_insert_Permutation x l : sorted_insert before x l ≡ₚ x :: l.
Proof.
  induction l as [|y l IH]; simpl; [done|].
  case_match; [|done]. rewrite IH. apply Permutation_swap.
Qed.

Lemma sorted_Permutation l : sorted before l ≡ₚ l.
Proof.
  induction l as [|x l IH]; simpl; [done|].
  by rewrite sorted_insert_Permutation, IH.
Qed.

Hypothesis before_asym : ∀ a b, before a b = true → before b a = false.
Hypothesis before_negtrans :
  ∀ a b c, before a b = false → before b c = false → before a c = false.


End sorted_facts.


(** ** The regional breakdown *)



Lemma region_key_truthy (n : GeoSummary.node) : truthy (Some (region_key_of n)) = true.
Proof.
  unfold region_key_of. destruct (fmt (continent_of n)); reflexivity.
Qed.

Lemma grouped_member {A K V} `{EqDecision K} (key : A → K) (val : A → V) l x :
  x ∈ l →
  (key x, members key val (key x) l) ∈ grouped key val l []
  ∧ val x ∈ members key val (key x) l.
Proof.
  intros Hx.
  assert (val x ∈ members key val (key x) l) as Hin.
  { unfold members. apply list_elem_of_fmap. exists x. split; [done|].
    by apply list_elem_of_filter. }
  split; [|done]. apply grouped_elem. split; [done|].
  intros Hnil. rewrite Hnil in Hin. by apply elem_of_nil in Hin.
Qed.

Lemma dc_lines_member (group : str * list GeoSummary.node_info) info line :
  info ∈ group.2 → line ∈ GeoSummary.node_lines info → line ∈ GeoSummary.dc_lines group.
Proof.
  intros Hinfo Hline. unfold GeoSummary.dc_lines. apply elem_of_app. right.
  apply elem_of_concat. exists (GeoSummary.node_lines info). split; [done|].
  apply list_elem_of_fmap. by exists info.
Qed.

Lemma region_lines_member (key : str) (grp : list GeoSummary.node_info) info line :
  truthy (Some key) = true → key ≠ lit "," →
  info ∈ grp → line ∈ GeoSummary.node_lines info →
  line ∈ GeoSummary.region_lines (key, grp).
Proof.
  intros Hkey Hne Hinfo Hline. unfold GeoSummary.region_lines.
  rewrite Hkey, bool_decide_false by done. simpl negb. simpl orb. cbv iota.
  apply elem_of_app. right. apply elem_of_concat.
  set (label := λ n, fmt (GeoSummary.info_dc_id n) ++ lit " ("
                     ++ fmt (GeoSummary.info_dc_owner n) ++ lit ")").
  change (fold_left _ grp []) with (grouped label id grp []).
  destruct (grouped_member label id grp info Hinfo) as [Hgroup Hmember].
  exists (GeoSummary.dc_lines (label info, members label id (label info) grp)).
  split.
  - by apply (dc_lines_member _ info).
  - apply list_elem_of_fmap. eexists. split; [done|].
    unfold GeoSummary.sorted_items. by rewrite sorted_Permutation.
Qed.

(** X10.  When the report is produced, every node whose region key is
    not the bare comma has all its lines in the regional breakdown; a
    node is left out exactly when its region has neither a continent nor
    a country, as for an empty [dc_region]. *)
Theorem nodes_in_regional_breakdown (nodes : list GeoSummary.node)
    (g : GeoSummary.groups) (n : GeoSummary.node) :
  GeoSummary.analyze_geographic_distribution nodes = Returned g →
  n ∈ nodes →
  (region_key_of n ≠ lit "," →
     ∀ line, line ∈ GeoSummary.node_lines (node_info_of n) →
             line ∈ GeoSummary.regional_lines g.1.1)
  ∧ (region_key_of n = lit "," ↔ continent_of n = Some [] ∧ country_of n = [])
  ∧ (GeoSummary.dc_region n = Some [] → region_key_of n = lit ",").
Proof.
  intros ->%analyze_Returned Hn. simpl. split_and!.
  - intros Hkey line Hline. unfold GeoSummary.regional_lines.
    apply elem_of_app. right. apply elem_of_concat.
    destruct (grouped_member region_key_of node_info_of nodes n Hn) as [Hgroup Hmember].
    exists (GeoSummary.region_lines
              (region_key_of n, members region_key_of node_info_of (region_key_of n) nodes)).
    split.
    + apply (region_lines_member _ _ (node_info_of n)); try done.
      apply region_key_truthy.
    + apply list_elem_of_fmap. eexists. split; [done|].
      unfold GeoSummary.sorted_items. by rewrite sorted_Permutation.
  - unfold region_key_of. change (lit ",") with [44%N].
    destruct (continent_of n) as [[|c s]|]; cbn [fmt app].
    + split; [by intros [= ->]|by intros [_ ->]].
    + split; [|by intros [[=] _]].
      intros [= _ Happ]. by apply app_eq_nil in Happ as [_ ?].
    + change (lit "None") with [78; 111; 110; 101]%N. cbn [app].
      split; [by intros [=]|by intros [[=] _]].
  - unfold region_key_of, continent_of, country_of. by intros ->.
Qed.

Lemma nodes_in_regional_breakdown_witness :
  region_key_of (node_in "n1" "") = lit ",".
Proof.
  destruct (nodes_in_regional_breakdown
              [node_in "n1" ""]
              (grouped region_key_of node_info_of [node_in "n1" ""] [],
               grouped country_of node_info_of [node_in "n1" ""] [],
               grouped continent_of node_info_of [node_in "n1" ""] [])
              (node_in "n1" "")) as (_ & _ & H).
  - vm_compute. reflexivity.
  - left.
  - apply H. reflexivity.
Defined.

Lemma concat_nil {A} (ls : list (list A)) : (∀ l, l ∈ ls → l = []) → concat ls = [].
Proof.
  induction ls as [|l ls IH]; intros Hls; [done|]. simpl.
  rewrite (Hls l) by left. apply IH. intros l' Hl'. apply Hls. by right.
Qed.

(** X11.  When no node has a continent or a country, as when the file
    has no [dc_region] column, the report is still produced, with an
    empty country section and an empty regional breakdown. *)
Theorem no_region_no_geography (nodes : list GeoSummary.node) (g : GeoSummary.groups) :
  GeoSummary.analyze_geographic_distribution nodes = Returned g →
  (∀ n, n ∈ nodes → GeoSummary.dc_region n = Some []) →
  GeoSummary.country_lines g.1.2 = [ [0x1F30E%N] ++ lit " COUNTRY DISTRIBUTION:"; [] ]
  ∧ GeoSummary.regional_lines g.1.1
    = [ [0x1F3D9; 0xFE0F]%N ++ lit "  DETAILED REGIONAL BREAKDOWN:" ].
Proof.
  intros ->%analyze_Returned Hregion. simpl. split.
  - unfold GeoSummary.country_lines, GeoSummary.sorted_country_summary,
      GeoSummary.country_summary.
    rewrite filter_none; [done|].
    intros [c grp] Hin. simpl.
    assert (c ∈ (grouped country_of node_info_of nodes []).*1) as Hc
      by (apply list_elem_of_fmap; by exists (c, grp)).
    apply grouped_keys_elem, list_elem_of_fmap in Hc as (n & -> & Hn).
    unfold country_of. rewrite (Hregion n Hn). by intros [].
  - unfold GeoSummary.regional_lines. rewrite concat_nil; [done|].
    intros lines ([key grp] & -> & Hin)%list_elem_of_fmap.
    unfold GeoSummary.sorted_items in Hin. rewrite sorted_Permutation in Hin.
    assert (key ∈ (grouped region_key_of node_info_of nodes []).*1) as Hkey
      by (apply list_elem_of_fmap; by exists (key, grp)).
    apply grouped_keys_elem, list_elem_of_fmap in Hkey as (n & -> & Hn).
    unfold region_key_of, continent_of, country_of. by rewrite (Hregion n Hn).
Qed.

Lemma no_region_no_geography_witness :
  GeoSummary.regional_lines
    (grouped region_key_of node_info_of
       (GeoSummary.read_subnet_data csv_without_dc_columns) [])
  = [ [0x1F3D9; 0xFE0F]%N ++ lit "  DETAILED REGIONAL BREAKDOWN:" ].
Proof.
  pose proof (no_region_no_geography
                (GeoSummary.read_subnet_data csv_without_dc_columns)
                (grouped region_key_of node_info_of
                   (GeoSummary.read_subnet_data csv_without_dc_columns) [],
                 grouped country_of node_info_of
                   (GeoSummary.read_subnet_data csv_without_dc_columns) [],
                 grouped continent_of node_info_of
                   (GeoSummary.read_subnet_data csv_without_dc_columns) [])) as H.
  simpl in H. apply H.
  - vm_compute. reflexivity.
  - intros n Hn. vm_compute in Hn.
    repeat (apply elem_of_cons in Hn as [->|Hn]; [reflexivity|]).
    by apply elem_of_nil in Hn.
Defined.

(** ** The all-clear notice *)

Lemma NoDup_fmap_filter {A K} `{EqDecision K} (f : A → K) (l : list A) :
  NoDup (f <$> l) ↔ ∀ k, length (filter (λ x, f x = k) l) ≤ 1.
Proof.
  induction l as [|x l IH]; [split; [simpl; lia|constructor]|].
  rewrite fmap_cons, NoDup_cons, IH. split.
  - intros [Hx Hl] k. rewrite filter_cons. case_decide as Hk; [|apply Hl].
    subst k. rewrite filter_none; [simpl; lia|].
    intros y Hy Heq. apply Hx. rewrite <- Heq. apply list_elem_of_fmap. by exists y.
  - intros Hall. split.
    + intros (y & Heq & Hy)%list_elem_of_fmap.
      specialize (Hall (f x)). rewrite filter_cons, decide_True in Hall by done.
      assert (y ∈ filter (λ z, f z = f x) l) as Hin by (by apply list_elem_of_filter).
      destruct (filter _ l); [by apply elem_of_nil in Hin|simpl in Hall; lia].
    + intros k. specialize (Hall k). rewrite filter_cons in Hall.
      case_decide; simpl in Hall; lia.
Qed.

Lemma flagged_nil_iff (field : GeoSummary.node → value) (nodes : list GeoSummary.node) :
  filter (λ kv : value * list GeoSummary.node, 1 < length kv.2)
    (grouped field id (active nodes) []) = []
  ↔ NoDup (field <$> active nodes).
Proof.
  rewrite NoDup_fmap_filter. split.
  - intros Hnil k.
    destruct (decide (1 < length (active_in field k nodes))) as [Hlt|Hle].
    + assert ((k, active_in field k nodes)
              ∈ filter (λ kv : value * list GeoSummary.node, 1 < length kv.2)
                  (grouped field id (active nodes) [])) as Hin
        by (by apply flagged_elem).
      rewrite Hnil in Hin. by apply elem_of_nil in Hin.
    + rewrite <- members_active in Hle. unfold members in Hle.
      rewrite list_fmap_id in Hle. unfold active. lia.
  - intros Hall. apply filter_none. intros [k grp] Hin Hlen. simpl in Hlen.
    unfold active in Hin. apply grouped_elem in Hin as [-> _].
    specialize (Hall k). unfold members in Hlen. rewrite list_fmap_id in Hlen.
    unfold active in Hall. lia.
Qed.

Lemma nonempty_elem {A} (l : list A) : l ≠ [] → ∃ x, x ∈ l.
Proof. destruct l as [|x l]; [done|]. intros _. exists x. left. Qed.

Lemma flagged_line_not_all_clear (group : value * list GeoSummary.node) :
  lit "  " ++ GeoSummary.warning_sign ++ lit "  " ++ fmt group.1 ++ lit ": "
    ++ str_of_nat (length group.2) ++ lit " nodes"
  ∉ all_clear_lines.
Proof.
  unfold all_clear_lines. intros Hin.
  repeat (apply elem_of_cons in Hin as [Hin|Hin]; [vm_compute in Hin; discriminate|]).
  by apply elem_of_nil in Hin.
Qed.

(** X12.  The constraint analysis consists of the all-clear notice alone
    exactly when the nodes that are not REMOVED have pairwise distinct
    [dc_id]s and pairwise distinct [dc_owner]s; otherwise it prints the
    line of at least one flagged group. *)
Theorem all_clear_iff_distinct (nodes : list GeoSummary.node) :
  (GeoSummary.constraint_lines nodes = all_clear_lines
   ↔ NoDup (GeoSummary.dc_id <$> active nodes)
     ∧ NoDup (GeoSummary.dc_owner <$> active nodes))
  ∧ (GeoSummary.constraint_lines nodes ≠ all_clear_lines →
     ∃ group, (group ∈ GeoSummary.dc_violations nodes
               ∨ group ∈ GeoSummary.owner_violations nodes)
              ∧ lit "  " ++ GeoSummary.warning_sign ++ lit "  " ++ fmt group.1
                  ++ lit ": " ++ str_of_nat (length group.2) ++ lit " nodes"
                ∈ GeoSummary.constraint_lines nodes).
Proof.
  assert (GeoSummary.dc_violations nodes = [] ↔ NoDup (GeoSummary.dc_id <$> active nodes))
    as Hdc.
  { unfold GeoSummary.dc_violations, GeoSummary.datacenters.
    rewrite constraint_groups_grouped. apply flagged_nil_iff. }
  assert (GeoSummary.owner_violations nodes = []
          ↔ NoDup (GeoSummary.dc_owner <$> active nodes)) as Hown.
  { unfold GeoSummary.owner_violations, GeoSummary.owners.
    rewrite constraint_groups_grouped. apply flagged_nil_iff. }
  assert (∀ group, group ∈ GeoSummary.dc_violations nodes
                   ∨ group ∈ GeoSummary.owner_violations nodes →
                   GeoSummary.constraint_lines nodes ≠ all_clear_lines) as Hflag.
  { intros group Hin Heq. apply (flagged_line_not_all_clear group).
    rewrite <- Heq. by apply flagged_group_is_printed. }
  assert (GeoSummary.dc_violations nodes = [] → GeoSummary.owner_violations nodes = [] →
          GeoSummary.constraint_lines nodes = all_clear_lines) as Hclear.
  { intros Hd Ho. unfold GeoSummary.constraint_lines.
    repeat case_bool_decide; done. }
  split.
  - rewrite <- Hdc, <- Hown. split; [|by intros [? ?]; apply Hclear].
    intros Heq. split.
    + destruct (decide (GeoSummary.dc_violations nodes = [])) as [|Hne]; [done|].
      apply nonempty_elem in Hne as [group Hin]. destruct (Hflag group); [by left|done].
    + destruct (decide (GeoSummary.owner_violations nodes = [])) as [|Hne]; [done|].
      apply nonempty_elem in Hne as [group Hin]. destruct (Hflag group); [by right|done].
  - intros Hne.
    destruct (decide (GeoSummary.dc_violations nodes = [])) as [Hd|Hd].
    + destruct (decide (GeoSummary.owner_violations nodes = [])) as [Ho|Ho].
      * destruct Hne. by apply Hclear.
      * apply nonempty_elem in Ho as [group Hin]. exists group.
        split; [by right|]. apply flagged_group_is_printed. by right.
    + apply nonempty_elem in Hd as [group Hin]. exists group.
      split; [by left|]. apply flagged_group_is_printed. by left.
Qed.

Lemma all_clear_iff_distinct_witness :
  ∃ group, (group ∈ GeoSummary.dc_violations tied_nodes
            ∨ group ∈ GeoSummary.owner_violations tied_nodes)
           ∧ lit "  " ++ GeoSummary.warning_sign ++ lit "  " ++ fmt group.1
               ++ lit ": " ++ str_of_nat (length group.2) ++ lit " nodes"
             ∈ GeoSummary.constraint_lines tied_nodes.
Proof.
  apply (all_clear_iff_distinct tied_nodes). vm_compute. discriminate.
Defined.

(** ** The map: loader, panel, markers and [main] *)

Lemma DictReader_data_rows (csv_file : list (list str)) :
  Csv.DictReader csv_file
  = Csv.DictReader_row (default [] (head csv_file)) <$> data_rows csv_file.
Proof. by destruct csv_file. Qed.

Lemma length_omap_filter {A B} (f : A → option B) (P : A → Prop)
    `{!∀ x, Decision (P x)} (l : list A) :
  (∀ x, is_Some (f x) ↔ P x) → length (omap f l) = length (filter P l).
Proof.
  intros Hf. induction l as [|x l IH]; [done|].
  rewrite filter_cons. simpl. destruct (f x) as [y|] eqn:Hx.
  - rewrite decide_True by (apply Hf; by rewrite Hx). simpl. f_equal. apply IH.
  - rewrite decide_False; [apply IH|]. intros HP. apply Hf in HP as [y Hy]. congruence.
Qed.

Lemma length_omap_split {A B C} (f : A → option B) (g : A → option C) (l : list A) :
  (∀ x, is_Some (f x) ↔ g x = None) →
  length (omap f l) + length (omap g l) = length l.
Proof.
  intros Hfg. induction l as [|x l IH]; [done|]. simpl in *.
  pose proof (Hfg x) as Hx. destruct (f x) as [y|], (g x) as [z|]; simpl.
  - destruct Hx as [Hx _]. by specialize (Hx (mk_is_Some _ _ eq_refl)).
  - f_equal. exact IH.
  - rewrite Nat.add_succ_r. f_equal. exact IH.
  - destruct Hx as [_ Hx]. by destruct (Hx eq_refl).
Qed.

Section map_facts.
Context {float : Type}.
Variable py_float : str → option float.

Lemma map_loader_fold (rows : list (list (str * value))) w ns :
  fold_left
    (λ (st : list str * list (SubnetMap.node_data float)) row,
       match SubnetMap.read_row py_float row with
       | Returned n => (st.1, st.2 ++ [n])
       | Raised e =>
           (st.1 ++ [ lit "Warning: Could not process node "
                      ++ fmt (Csv.get row "node_id" "unknown") ++ lit ": "
                      ++ lit (exn_message e) ],
            st.2)
       end)
    rows (w, ns)
  = (w ++ omap (λ row, match SubnetMap.read_row py_float row with
                       | Returned _ => None
                       | Raised e =>
                           Some (lit "Warning: Could not process node "
                                 ++ fmt (Csv.get row "node_id" "unknown") ++ lit ": "
                                 ++ lit (exn_message e))
                       end) rows,
     ns ++ omap (λ row, match SubnetMap.read_row py_float row with
                        | Returned n => Some n
                        | Raised _ => None
                        end) rows).
Proof.
  revert w ns. induction rows as [|row rows IH]; intros w ns.
  - by rewrite !app_nil_r.
  - simpl. destruct (SubnetMap.read_row py_float row) as [n|e]; simpl; rewrite IH.
    + by rewrite <- app_assoc.
    + by rewrite <- app_assoc.
Qed.

(** X13.  The loader of the map variant goes through the non-blank data
    rows in order and either keeps a row as a node or prints one warning
    for it and skips it; it skips exactly the rows that have no value for
    [gps_latitude] or for [gps_longitude], which only a row shorter than
    the header can lack. *)
Theorem map_loader_accounting (csv_file : list (list str)) :
  let loaded := SubnetMap.read_subnet_data py_float csv_file in
  loaded.2 = omap (λ row, match SubnetMap.read_row py_float row with
                          | Returned n => Some n
                          | Raised _ => None
                          end) (Csv.DictReader csv_file)
  ∧ length loaded.1
    = length (filter (λ row, Csv.get row "gps_latitude" "" = None
                             ∨ Csv.get row "gps_longitude" "" = None)
                     (Csv.DictReader csv_file))
  ∧ length loaded.1 + length loaded.2 = length (data_rows csv_file)
  ∧ (∀ fieldnames rows,
       csv_file = fieldnames :: rows →
       Forall (λ r, r = [] ∨ length fieldnames ≤ length r) rows →
       loaded.1 = [] ∧ length loaded.2 = length (data_rows csv_file)).
Proof.
  unfold SubnetMap.read_subnet_data. rewrite map_loader_fold.
  cbn [fst snd]. rewrite !app_nil_l.
  set (rows := Csv.DictReader csv_file).
  assert (length (omap (λ row, match SubnetMap.read_row py_float row with
                               | Returned _ => None
                               | Raised e =>
                                   Some (lit "Warning: Could not process node "
                                         ++ fmt (Csv.get row "node_id" "unknown")
                                         ++ lit ": " ++ lit (exn_message e))
                               end) rows)
          = length (filter (λ row, Csv.get row "gps_latitude" "" = None
                                   ∨ Csv.get row "gps_longitude" "" = None) rows))
    as Hskipped.
  { apply length_omap_filter. intros row.
    rewrite <- (map_row_skipped_iff py_float row).
    destruct (SubnetMap.read_row py_float row) as [n|e]; split.
    - by intros [? ?].
    - by intros [? ?].
    - intros _. by exists e.
    - intros _. by eexists. }
  assert (length (omap (λ row, match SubnetMap.read_row py_float row with
                               | Returned _ => None
                               | Raised e =>
                                   Some (lit "Warning: Could not process node "
                                         ++ fmt (Csv.get row "node_id" "unknown")
                                         ++ lit ": " ++ lit (exn_message e))
                               end) rows)
          + length (omap (λ row, match SubnetMap.read_row py_float row with
                                 | Returned n => Some n
                                 | Raised _ => None
                                 end) rows)
          = length (data_rows csv_file)) as Htotal.
  { unfold rows. rewrite DictReader_data_rows.
    rewrite length_omap_split; [by rewrite length_fmap|].
    intros row. by destruct (SubnetMap.read_row py_float row). }
  split_and!; [done..|].
  intros fieldnames rs -> Hfull.
  assert (filter (λ row, Csv.get row "gps_latitude" "" = None
                         ∨ Csv.get row "gps_longitude" "" = None) rows = []) as Hnone.
  { apply filter_none. intros row Hrow. unfold rows in Hrow. simpl in Hrow.
    apply list_elem_of_fmap in Hrow as (r & -> & [Hne Hr]%list_elem_of_filter).
    rewrite Forall_forall in Hfull. destruct (Hfull r Hr) as [?|Hlen]; [done|].
    intros [Hlat|Hlon]; by eapply get_full_row. }
  rewrite Hnone in Hskipped.
  apply nil_length_inv in Hskipped as Hw. split; [done|].
  rewrite Hw in Htotal. exact Htotal.
Qed.
End map_facts.

Lemma map_loader_accounting_witness :
  (SubnetMap.read_subnet_data SubnetMap.decimal
     [ [lit "node_id"; lit "gps_latitude"; lit "gps_longitude"];
       [lit "n1"; lit "40.7"; lit "-74.0"] ]).1 = [].
Proof.
  destruct (map_loader_accounting SubnetMap.decimal
              [ [lit "node_id"; lit "gps_latitude"; lit "gps_longitude"];
                [lit "n1"; lit "40.7"; lit "-74.0"] ]) as (_ & _ & _ & H).
  apply (H _ _ eq_refl). apply Forall_cons. split; [right; simpl; lia|apply Forall_nil_2].
Defined.

Lemma filter_iff_in {A} (P Q : A → Prop) `{!∀ x, Decision (P x), !∀ x, Decision (Q x)}
    (l : list A) :
  (∀ x, x ∈ l → P x ↔ Q x) → filter P l = filter Q l.
Proof.
  induction l as [|x l IH]; intros Hl; [done|].
  rewrite !filter_cons. rewrite IH by (intros y Hy; apply Hl; by right).
  destruct (decide (P x)) as [HP|HP].
  - by rewrite decide_True by (by apply Hl; [left|]).
  - rewrite decide_False; [done|]. intros HQ. apply HP. by apply Hl; [left|].
Qed.

Section map_page.
Context {float : Type}.

(** X14.  The three change counts of the panel and the number of nodes
    with any other change type add up to the total of the panel: a node
    whose change type is not one of the three is in the total and in none
    of the three counts. *)
Theorem panel_change_counts (nodes : list (SubnetMap.node_data float)) (subnet_id : str) :
  let doc := SubnetMap.generate_html_map nodes subnet_id in
  SubnetMap.panel_added doc + SubnetMap.panel_removed doc + SubnetMap.panel_unchanged doc
  + length (filter (λ n, SubnetMap.change_type n ≠ Some (lit "ADDED")
                         ∧ SubnetMap.change_type n ≠ Some (lit "REMOVED")
                         ∧ SubnetMap.change_type n ≠ Some (lit "UNCHANGED")) nodes)
  = SubnetMap.panel_total doc.
Proof.
  simpl. induction nodes as [|n nodes IH]; [done|].
  rewrite !filter_cons. simpl length. rewrite <- IH. clear IH.
  assert (Some (lit "ADDED") ≠ Some (lit "REMOVED")) by (vm_compute; discriminate).
  assert (Some (lit "ADDED") ≠ Some (lit "UNCHANGED")) by (vm_compute; discriminate).
  assert (Some (lit "REMOVED") ≠ Some (lit "UNCHANGED")) by (vm_compute; discriminate).
  destruct (decide (SubnetMap.change_type n = Some (lit "ADDED"))) as [Ha|Ha];
  destruct (decide (SubnetMap.change_type n = Some (lit "REMOVED"))) as [Hr|Hr];
  destruct (decide (SubnetMap.change_type n = Some (lit "UNCHANGED"))) as [Hu|Hu];
    try congruence.
  - rewrite decide_False by tauto. simpl. lia.
  - rewrite decide_False by tauto. simpl. lia.
  - rewrite decide_False by tauto. simpl. lia.
  - rewrite decide_True by tauto. simpl. lia.
Qed.

Lemma violation_test_script (v : value) :
  truthy v && bool_decide (v ≠ Some (lit "NO_VIOLATIONS"))
  && bool_decide (v ≠ Some (lit "REMOVED_NODE")) ↔ in_violation v.
Proof.
  rewrite <- in_violation_test, !andb_True, !bool_decide_spec.
  unfold GeoSummary.sentinels. rewrite !not_elem_of_cons.
  pose proof (not_elem_of_nil v). tauto.
Qed.

(** X15.  [getNodeColor] returns the violation colour exactly when the
    node is in violation by the rule of the panel, whatever its change
    type; otherwise ADDED is green, REMOVED red and every other change
    type, a missing one included, blue.  Building the popup of a node
    raises a TypeError exactly when its [node_id], [node_operator_id] or
    [node_provider_id] is null; a popup that is built carries the
    violation text exactly for a node in violation.  Of the records
    embedded in the page, those that [getNodeColor] maps to the violation
    colour are at most as many as the panel counts, and as many when
    every input node is located. *)
Theorem marker_colour (node : SubnetMap.node_data float) :
  (SubnetMap.getNodeColor node = SubnetMap.color_violation
   ↔ in_violation (SubnetMap.constraint_violation node))
  ∧ (SubnetMap.popupContent node = Raised TypeError
     ↔ SubnetMap.node_id node = None ∨ SubnetMap.node_operator_id node = None
       ∨ SubnetMap.node_provider_id node = None)
  ∧ (SubnetMap.node_id node ≠ None → SubnetMap.node_operator_id node ≠ None
     → SubnetMap.node_provider_id node ≠ None
     → ∃ shown : bool,
         SubnetMap.popupContent node = Returned shown
         ∧ (shown ↔ in_violation (SubnetMap.constraint_violation node)))
  ∧ (¬ in_violation (SubnetMap.constraint_violation node) →
     SubnetMap.getNodeColor node
     = if bool_decide (SubnetMap.change_type node = Some (lit "ADDED"))
       then SubnetMap.color_added
       else if bool_decide (SubnetMap.change_type node = Some (lit "REMOVED"))
            then SubnetMap.color_removed
            else SubnetMap.color_unchanged)
  ∧ (∀ nodes subnet_id,
       let doc := SubnetMap.generate_html_map nodes subnet_id in
       length (filter (λ n, SubnetMap.getNodeColor n = SubnetMap.color_violation)
                      (SubnetMap.marker_data doc))
       ≤ SubnetMap.panel_violations doc
       ∧ (Forall (λ n : SubnetMap.node_data float,
                    SubnetMap.latitude n ≠ None ∧ SubnetMap.longitude n ≠ None) nodes →
          length (filter (λ n, SubnetMap.getNodeColor n = SubnetMap.color_violation)
                         (SubnetMap.marker_data doc))
          = SubnetMap.panel_violations doc)).
Proof.
  assert (∀ n : SubnetMap.node_data float,
            SubnetMap.getNodeColor n = SubnetMap.color_violation
            ↔ in_violation (SubnetMap.constraint_violation n)) as Hcolour.
  { intros n. rewrite <- violation_test_script. unfold SubnetMap.getNodeColor.
    destruct (truthy _ && _ && _); [done|].
    split; [|done]. repeat case_bool_decide; vm_compute; discriminate. }
  split_and!.
  - apply Hcolour.
  - unfold SubnetMap.popupContent.
    destruct (SubnetMap.node_id node), (SubnetMap.node_operator_id node),
      (SubnetMap.node_provider_id node); split; try done;
      try (intros [?|[?|?]]; done); intros _; tauto.
  - intros Hid Hop Hprov. unfold SubnetMap.popupContent.
    destruct (SubnetMap.node_id node), (SubnetMap.node_operator_id node),
      (SubnetMap.node_provider_id node); try done.
    eexists. split; [done|]. apply violation_test_script.
  - intros Hnot. rewrite <- violation_test_script in Hnot.
    unfold SubnetMap.getNodeColor. by destruct (truthy _ && _ && _).
  - intros nodes subnet_id doc.
    assert (SubnetMap.panel_violations doc
            = length (filter (λ n, SubnetMap.getNodeColor n = SubnetMap.color_violation)
                             nodes)) as ->.
    { simpl. f_equal. apply list_filter_iff. intros n.
      by rewrite in_violation_test, Hcolour. }
    simpl. rewrite list_filter_filter. split.
    + rewrite <- (list_filter_filter_l
                   (λ n, SubnetMap.getNodeColor n = SubnetMap.color_violation
                         ∧ SubnetMap.latitude n ≠ None ∧ SubnetMap.longitude n ≠ None)
                   (λ n, SubnetMap.getNodeColor n = SubnetMap.color_violation)) by tauto.
      apply length_filter.
    + intros Hall. f_equal. apply filter_iff_in. intros n Hn.
      rewrite Forall_forall in Hall. specialize (Hall n Hn). tauto.
Qed.
End map_page.

Example violating_removed_marker :
  let violating := SubnetMap.NodeData (float := Q) None None None None None None [] []
                     (Some (lit "REMOVED")) (Some (lit "dc limit")) None None
                     (Some 1%Q) (Some 2%Q) in
  SubnetMap.getNodeColor violating = SubnetMap.color_violation
  ∧ SubnetMap.marker_radius violating = 6.
Proof. split; reflexivity. Qed.

Lemma marker_colour_witness :
  SubnetMap.getNodeColor
    (SubnetMap.NodeData (float := Q) None None None None None None [] []
       (Some (lit "PENDING")) (Some (lit "NO_VIOLATIONS")) None None
       (Some 1%Q) (Some 2%Q))
  = SubnetMap.color_unchanged.
Proof.
  destruct (marker_colour
              (SubnetMap.NodeData (float := Q) None None None None None None [] []
                 (Some (lit "PENDING")) (Some (lit "NO_VIOLATIONS")) None None
                 (Some 1%Q) (Some 2%Q))) as (_ & _ & _ & H & _).
  apply H. vm_compute. tauto.
Defined.

(** A row that stops before its [node_id] is kept by the loader when it
    has both coordinates; its popup cannot be built. *)
Example short_row_has_no_popup :
  let loaded :=
    SubnetMap.read_subnet_data SubnetMap.decimal
      [ [lit "gps_latitude"; lit "gps_longitude"; lit "node_id"];
        [lit "1"; lit "2"] ] in
  loaded.1 = [] ∧ SubnetMap.popupContent <$> loaded.2 = [Raised TypeError].
Proof. split; reflexivity. Qed.

Lemma omap_nonempty {A B} (f : A → option B) (l : list A) :
  omap f l ≠ [] ↔ ∃ x, x ∈ l ∧ is_Some (f x).
Proof.
  induction l as [|x l IH]; simpl.
  - split; [done|]. by intros (x & ?%elem_of_nil & _).
  - destruct (f x) as [y|] eqn:Hx.
    + split; [|done]. intros _. exists x. split; [left|by rewrite Hx].
    + rewrite IH. split.
      * intros (z & Hz & Hfz). exists z. split; [by right|done].
      * intros (z & [->|Hz]%elem_of_cons & Hfz); [|by exists z].
        rewrite Hx in Hfz. by destruct Hfz.
Qed.

Section map_main.
Context {float : Type}.
Variable py_float : str → option float.
Variable absolute : str → option str.
Variable write_file : str → SubnetMap.html_document float → Process.write_result.

Lemma map_kept_iff (csv_file : list (list str)) :
  (SubnetMap.read_subnet_data py_float csv_file).2 ≠ []
  ↔ ∃ row, row ∈ Csv.DictReader csv_file
           ∧ Csv.get row "gps_latitude" "" ≠ None
           ∧ Csv.get row "gps_longitude" "" ≠ None.
Proof.
  unfold SubnetMap.read_subnet_data. rewrite map_loader_fold. cbn [fst snd app].
  rewrite omap_nonempty. split.
  - intros (row & Hrow & Hsome). exists row. split; [done|].
    pose proof (map_row_skipped_iff py_float row) as Hskip.
    destruct (SubnetMap.read_row py_float row) as [n|e]; [|by destruct Hsome].
    destruct Hskip as [_ Hskip].
    split; intros Hnone; [destruct Hskip as [e ?]; [by left|done]
                         |destruct Hskip as [e ?]; [by right|done]].
  - intros (row & Hrow & Hlat & Hlon). exists row. split; [done|].
    pose proof (map_row_skipped_iff py_float row) as Hskip.
    destruct (SubnetMap.read_row py_float row) as [n|e]; [done|].
    destruct Hskip as [[?|?] _]; [by exists e|done..].
Qed.

(** X16.  [main] of the map variant returns 0 exactly when the input is
    read to its end, the loader kept a node, the document is stored and
    the absolute path of the output is found; the loader keeps a node
    exactly when some non-blank data row has a value for both GPS
    columns.  The complete document, built from all kept nodes, is on
    disk exactly when the input is read, a node is kept and the write
    succeeds.  [main] returns 1 exactly when the input is missing or no
    node is kept, and then nothing is written; it returns no other
    status.  A read that raises leaves [main] uncaught, without a file,
    after the warnings of the rows read so far; a write that raises
    leaves it uncaught, without the complete document.  The warnings of
    the loader are always printed. *)
Theorem map_main_writes_iff_kept (input_path output_file subnet_id : str)
    (input : Process.input_file) :
  let run :=
    SubnetMap.main py_float absolute write_file input_path input output_file subnet_id in
  let kept := λ csv_file, (SubnetMap.read_subnet_data py_float csv_file).2 in
  let doc := λ csv_file, SubnetMap.generate_html_map (kept csv_file) subnet_id in
  (run.2 = Process.Exit 0
   ↔ ∃ csv_file, input = Process.Readable csv_file ∧ kept csv_file ≠ []
                 ∧ write_file output_file (doc csv_file) = Process.Stored
                 ∧ absolute output_file ≠ None)
  ∧ (run.2 = Process.Exit 1
     ↔ input = Process.Missing
       ∨ ∃ csv_file, input = Process.Readable csv_file ∧ kept csv_file = [])
  ∧ (∀ status, run.2 = Process.Exit status → status = 0 ∨ status = 1)
  ∧ (∀ path d,
       (path, Some d) ∈ SubnetMap.written run.1
       ↔ ∃ csv_file, input = Process.Readable csv_file ∧ kept csv_file ≠ []
                     ∧ write_file output_file (doc csv_file) = Process.Stored
                     ∧ path = output_file ∧ d = doc csv_file)
  ∧ (run.2 = Process.Exit 1 → SubnetMap.written run.1 = [])
  ∧ (∀ csv_file, input = Process.Readable csv_file →
       (∀ w, w ∈ (SubnetMap.read_subnet_data py_float csv_file).1
             → w ∈ SubnetMap.printed run.1)
       ∧ (kept csv_file ≠ []
          ↔ ∃ row, row ∈ Csv.DictReader csv_file
                   ∧ Csv.get row "gps_latitude" "" ≠ None
                   ∧ Csv.get row "gps_longitude" "" ≠ None)
       ∧ (kept csv_file ≠ [] →
          write_file output_file (doc csv_file) ≠ Process.Stored →
          run.2 = Process.Uncaught Process.WriteFailed))
  ∧ (∀ rows_read, input = Process.Unreadable rows_read →
       run.2 = Process.Uncaught Process.ReadFailed
       ∧ SubnetMap.written run.1 = []
       ∧ (∀ w, w ∈ (SubnetMap.read_subnet_data py_float rows_read).1
               → w ∈ SubnetMap.printed run.1)).
Proof.
  intros run kept doc. unfold run, SubnetMap.main.
  destruct input as [|csv_file|rows_read].
  - cbn [fst snd SubnetMap.written SubnetMap.printed]. split_and!.
    + split; [done|]. by intros (? & ? & _).
    + split; [by left|done].
    + intros status [= <-]. by right.
    + intros path d. split; [by intros ?%elem_of_nil|]. by intros (? & ? & _).
    + done.
    + done.
    + done.
  - pose proof (map_kept_iff csv_file) as Hkept.
    unfold doc, kept.
    destruct (SubnetMap.read_subnet_data py_float csv_file) as [warnings nodes] eqn:Hread.
    cbn [fst snd] in Hkept |- *.
    case_bool_decide as Hnodes; cbn [fst snd SubnetMap.written SubnetMap.printed].
    + split_and!.
      * split; [done|]. intros (csv & [= <-] & Hne & _). rewrite Hread in Hne. done.
      * split; [|done]. intros _. right. exists csv_file. by rewrite Hread.
      * intros status [= <-]. by right.
      * intros path d. split; [by intros ?%elem_of_nil|].
        intros (csv & [= <-] & Hne & _). rewrite Hread in Hne. done.
      * done.
      * intros csv [= <-]. rewrite Hread. cbn [fst snd]. split_and!; [|done..].
        intros w Hin. rewrite !elem_of_app. tauto.
      * done.
    + unfold SubnetMap.generate_html_map_effects.
      destruct (write_file output_file (SubnetMap.generate_html_map nodes subnet_id))
        as [| |] eqn:Hwrite;
        [destruct (absolute output_file) as [path|] eqn:Habs|..];
        cbn [fst snd SubnetMap.written SubnetMap.printed].
      * split_and!.
        -- split; [|done]. intros _. exists csv_file. rewrite Hread. cbn [snd].
           by rewrite Hwrite.
        -- split; [done|]. intros [?|(csv & [= <-] & Hnil)]; [done|].
           rewrite Hread in Hnil. done.
        -- intros status [= <-]. by left.
        -- intros p d. rewrite list_elem_of_singleton. split.
           ++ intros [= -> ->]. exists csv_file. rewrite Hread. cbn [snd].
              by rewrite Hwrite.
           ++ intros (csv & [= <-] & _ & _ & -> & ->). by rewrite Hread.
        -- done.
        -- intros csv [= <-]. rewrite Hread. cbn [fst snd]. split_and!; [|done|].
           ++ intros w Hin. rewrite !elem_of_app. tauto.
           ++ intros _ Hne. by rewrite Hwrite in Hne.
        -- done.
      * split_and!.
        -- split; [done|]. intros (csv & [= <-] & _ & _ & Hne). done.
        -- split; [done|]. intros [?|(csv & [= <-] & Hnil)]; [done|].
           rewrite Hread in Hnil. done.
        -- done.
        -- intros p d. rewrite list_elem_of_singleton. split.
           ++ intros [= -> ->]. exists csv_file. rewrite Hread. cbn [snd].
              by rewrite Hwrite.
           ++ intros (csv & [= <-] & _ & _ & -> & ->). by rewrite Hread.
        -- done.
        -- intros csv [= <-]. rewrite Hread. cbn [fst snd]. split_and!; [|done|].
           ++ intros w Hin. rewrite !elem_of_app. tauto.
           ++ intros _ Hne. by rewrite Hwrite in Hne.
        -- done.
      * split_and!.
        -- split; [done|]. intros (csv & [= <-] & _ & Hw & _).
           rewrite Hread in Hw. cbn [snd] in Hw. congruence.
        -- split; [done|]. intros [?|(csv & [= <-] & Hnil)]; [done|].
           rewrite Hread in Hnil. done.
        -- done.
        -- intros p d. split; [by intros ?%elem_of_nil|].
           intros (csv & [= <-] & _ & Hw & _).
           rewrite Hread in Hw. cbn [snd] in Hw. congruence.
        -- done.
        -- intros csv [= <-]. rewrite Hread. cbn [fst snd]. split_and!; [|done..].
           intros w Hin. rewrite !elem_of_app. tauto.
        -- done.
      * split_and!.
        -- split; [done|]. intros (csv & [= <-] & _ & Hw & _).
           rewrite Hread in Hw. cbn [snd] in Hw. congruence.
        -- split; [done|]. intros [?|(csv & [= <-] & Hnil)]; [done|].
           rewrite Hread in Hnil. done.
        -- done.
        -- intros p d. rewrite list_elem_of_singleton. split; [done|].
           intros (csv & [= <-] & _ & Hw & _).
           rewrite Hread in Hw. cbn [snd] in Hw. congruence.
        -- done.
        -- intros csv [= <-]. rewrite Hread. cbn [fst snd]. split_and!; [|done..].
           intros w Hin. rewrite !elem_of_app. tauto.
        -- done.
  - cbn [fst snd SubnetMap.written SubnetMap.printed]. split_and!.
    + split; [done|]. by intros (? & ? & _).
    + split; [done|]. by intros [?|(? & ? & _)].
    + done.
    + intros path d. split; [by intros ?%elem_of_nil|]. by intros (? & ? & _).
    + done.
    + done.
    + intros rows [= <-]. split_and!; [done..|].
      intros w Hin. rewrite elem_of_app. by right.
Qed.
End map_main.

Lemma map_main_writes_iff_kept_witness :
  SubnetMap.written
    (SubnetMap.main SubnetMap.decimal (λ p, Some (lit "/tmp/" ++ p))
       (λ _ _, Process.Stored) (lit "audit.csv")
       (Process.Readable
          [ [lit "gps_latitude"; lit "gps_longitude"; lit "node_id"]; [lit "1"] ])
       (lit "map.html") (lit "")).1
  = [].
Proof.
  destruct (map_main_writes_iff_kept SubnetMap.decimal (λ p, Some (lit "/tmp/" ++ p))
              (λ _ _, Process.Stored)
              (lit "audit.csv") (lit "map.html") (lit "")
              (Process.Readable
                 [ [lit "gps_latitude"; lit "gps_longitude"; lit "node_id"];
                   [lit "1"] ])) as (_ & _ & _ & _ & H & _).
  apply H. reflexivity.
Defined.

(** A path that cannot be opened for writing: the run ends in the error
    of [open], after the line that announces the map, and leaves no
    file. *)
Example unwritable_output :
  let run :=
    SubnetMap.main SubnetMap.decimal (λ p, Some (lit "/tmp/" ++ p))
      (λ _ _, Process.NotOpened) (lit "audit.csv")
      (Process.Readable
         [ [lit "gps_latitude"; lit "gps_longitude"; lit "node_id"];
           [lit "1"; lit "2"; lit "n1"] ])
      (lit "/map.html") (lit "") in
  run.2 = Process.Uncaught Process.WriteFailed
  ∧ SubnetMap.written run.1 = []
  ∧ SubnetMap.printed run.1
    = [ lit "Reading data from audit.csv..."; lit "Generating map for 1 nodes..." ].
Proof. split_and!; reflexivity. Qed.

(** ** The two scripts on one file *)

Lemma length_omap_le {A B} (f : A → option B) (l : list A) :
  length (omap f l) ≤ length l.
Proof.
  induction l as [|x l IH]; [done|]. cbn [omap list_omap].
  destruct (f x); simpl in *; lia.
Qed.

Lemma omap_cons {A B} (f : A → option B) (x : A) (l : list A) :
  omap f (x :: l) = match f x with Some y => y :: omap f l | None => omap f l end.
Proof. reflexivity. Qed.

Section two_scripts.
Context {float : Type}.
Variable py_float : str → option float.

Lemma read_row_violation (row : list (str * value)) (n : SubnetMap.node_data float) :
  SubnetMap.read_row py_float row = Returned n →
  SubnetMap.constraint_violation n = Csv.get row "constraint_violation" "".
Proof.
  unfold SubnetMap.read_row.
  destruct (SubnetMap.parse_region _) as [[c y]|e]; simpl; [|done].
  destruct (SubnetMap.stripped (Csv.get row "gps_latitude" "")); simpl; [|done].
  destruct (SubnetMap.stripped (Csv.get row "gps_longitude" "")); simpl; [|done].
  by intros [= <-].
Qed.

Lemma map_loaded (csv_file : list (list str)) :
  SubnetMap.read_subnet_data py_float csv_file
  = (omap (skip_warning py_float) (Csv.DictReader csv_file),
     omap (kept_node py_float) (Csv.DictReader csv_file)).
Proof. unfold SubnetMap.read_subnet_data. by rewrite map_loader_fold. Qed.

Lemma violations_kept_rows (rows : list (list (str * value))) :
  length (filter (λ n, in_violation (SubnetMap.constraint_violation n))
                 (omap (kept_node py_float) rows))
  ≤ length (filter (λ row, in_violation (Csv.get row "constraint_violation" "")) rows)
  ∧ (length (omap (kept_node py_float) rows) = length rows →
     length (filter (λ n, in_violation (SubnetMap.constraint_violation n))
                    (omap (kept_node py_float) rows))
     = length (filter (λ row, in_violation (Csv.get row "constraint_violation" "")) rows)).
Proof.
  induction rows as [|row rows [IHle IHeq]]; [done|].
  rewrite (filter_cons _ row), !omap_cons.
  pose proof (length_omap_le (kept_node py_float) rows) as Hbound.
  destruct (SubnetMap.read_row py_float row) as [n|e] eqn:Hrow.
  - assert (kept_node py_float row = Some n) as ->
      by (unfold kept_node; by rewrite Hrow).
    rewrite filter_cons, (read_row_violation row n Hrow). split.
    + case_decide; simpl; lia.
    + intros Hlen. simpl in Hlen. case_decide; simpl; lia.
  - assert (kept_node py_float row = None) as ->
      by (unfold kept_node; by rewrite Hrow).
    split.
    + case_decide; simpl; lia.
    + intros Hlen. simpl in Hlen. lia.
Qed.

(** X4.  On one file, the map's panel counts the records the text report
    counts, less the rows the map loader skipped with a warning; its
    violation count never exceeds that of the text report, and when no
    row was skipped the two scripts report the same total and the same
    number of violations. *)
Theorem two_reports_agree (csv_file : list (list str)) (subnet_id : str) :
  let text := GeoSummary.read_subnet_data csv_file in
  let loaded := SubnetMap.read_subnet_data py_float csv_file in
  let doc := SubnetMap.generate_html_map loaded.2 subnet_id in
  SubnetMap.panel_total doc + length loaded.1 = length text
  ∧ SubnetMap.panel_violations doc ≤ GeoSummary.violation_count text
  ∧ (loaded.1 = [] →
     SubnetMap.panel_total doc = length text
     ∧ SubnetMap.panel_violations doc = GeoSummary.violation_count text).
Proof.
  intros text loaded doc. unfold doc, loaded, text.
  rewrite map_loaded. cbn [fst snd].
  set (rows := Csv.DictReader csv_file).
  assert (SubnetMap.panel_violations
            (SubnetMap.generate_html_map (omap (kept_node py_float) rows) subnet_id)
          = length (filter (λ n, in_violation (SubnetMap.constraint_violation n))
                           (omap (kept_node py_float) rows))) as ->.
  { cbn [SubnetMap.generate_html_map SubnetMap.panel_violations]. f_equal.
    apply list_filter_iff. intros n. apply in_violation_test. }
  assert (GeoSummary.violation_count (GeoSummary.read_subnet_data csv_file)
          = length (filter (λ row, in_violation (Csv.get row "constraint_violation" ""))
                           rows)) as ->.
  { unfold GeoSummary.violation_count, GeoSummary.read_subnet_data. fold rows.
    induction rows as [|row rows' IH]; [done|].
    rewrite fmap_cons, !filter_cons. cbn [GeoSummary.constraint_violation].
    pose proof (in_violation_test (Csv.get row "constraint_violation" "")) as Htest.
    destruct (decide (in_violation (Csv.get row "constraint_violation" ""))) as [Hv|Hv].
    - rewrite decide_True by (by apply Htest). simpl. by rewrite IH.
    - rewrite decide_False by (by rewrite Htest). done. }
  assert (length (GeoSummary.read_subnet_data csv_file) = length rows) as ->
    by (unfold GeoSummary.read_subnet_data; by rewrite length_fmap).
  cbn [SubnetMap.generate_html_map SubnetMap.panel_total].
  assert (length (omap (skip_warning py_float) rows)
          + length (omap (kept_node py_float) rows) = length rows) as Hsplit.
  { apply length_omap_split. intros row. unfold skip_warning, kept_node.
    by destruct (SubnetMap.read_row py_float row). }
  destruct (violations_kept_rows rows) as [Hle Heq].
  split_and!; [lia|done|].
  intros Hnil. rewrite Hnil in Hsplit. split; [exact Hsplit|].
  apply Heq. exact Hsplit.
Qed.
End two_scripts.

Lemma two_reports_agree_witness :
  SubnetMap.panel_violations
    (SubnetMap.generate_html_map
       (SubnetMap.read_subnet_data SubnetMap.decimal csv_without_dc_columns).2 (lit ""))
  = GeoSummary.violation_count (GeoSummary.read_subnet_data csv_without_dc_columns).
Proof.
  destruct (two_reports_agree SubnetMap.decimal csv_without_dc_columns (lit ""))
    as (_ & _ & H).
  apply H. reflexivity.
Defined.

(** ** The coordinates of the nodes the map loader keeps *)

Section coordinates.
Context {float : Type}.
Variable py_float : str → option float.

Lemma coordinate_coerced (raw : str) :
  SubnetMap.coordinate py_float (strip raw) = coerced py_float raw.
Proof.
  rewrite coordinate_equation. unfold coerced.
  case_bool_decide; [by rewrite decide_True|by rewrite decide_False].
Qed.

Lemma read_row_coordinates (row : list (str * value)) (lat lon : str) :
  Csv.get row "gps_latitude" "" = Some lat →
  Csv.get row "gps_longitude" "" = Some lon →
  ∃ n, SubnetMap.read_row py_float row = Returned n
       ∧ SubnetMap.latitude n = coerced py_float lat
       ∧ SubnetMap.longitude n = coerced py_float lon.
Proof.
  intros Hlat Hlon. unfold SubnetMap.read_row.
  destruct (map_parse_region_total (Csv.get row "dc_region" "")) as [[c y] ->].
  rewrite Hlat, Hlon. simpl. eexists. split; [done|].
  cbn [SubnetMap.latitude SubnetMap.longitude].
  by rewrite !coordinate_coerced.
Qed.

Lemma read_row_Returned (row : list (str * value)) (n : SubnetMap.node_data float) :
  SubnetMap.read_row py_float row = Returned n →
  ∃ lat lon, Csv.get row "gps_latitude" "" = Some lat
             ∧ Csv.get row "gps_longitude" "" = Some lon
             ∧ SubnetMap.latitude n = coerced py_float lat
             ∧ SubnetMap.longitude n = coerced py_float lon.
Proof.
  intros Hrow.
  destruct (Csv.get row "gps_latitude" "") as [lat|] eqn:Hlat.
  - destruct (Csv.get row "gps_longitude" "") as [lon|] eqn:Hlon.
    + destruct (read_row_coordinates row lat lon Hlat Hlon) as (n' & Hn' & ? & ?).
      rewrite Hrow in Hn'. injection Hn' as <-. by exists lat, lon.
    + destruct (map_row_skipped_iff py_float row) as [_ [e He]]; [by right|].
      congruence.
  - destruct (map_row_skipped_iff py_float row) as [_ [e He]]; [by left|].
    congruence.
Qed.

(** C6.  Reading a coordinate from a string never raises.  The string
    is trimmed; the empty string and the text None give an unset
    coordinate, a string that [float] rejects gives an unset coordinate,
    and a string that [float] accepts gives the number [float] returns,
    as for 37.5.  This is what the loader stores: a row whose two GPS
    values are strings is kept, without a warning, with the coercion of
    the one as its latitude and of the other as its longitude, and every
    node the loader keeps has the coordinates coerced from the GPS
    strings of its row. *)
Theorem coordinate_coercion (raw : str) :
  (∃ r, SubnetMap.read_coordinate py_float (Some raw) = Returned r)
  ∧ (strip raw = [] ∨ strip raw = lit "None"
     → SubnetMap.read_coordinate py_float (Some raw) = Returned None)
  ∧ (py_float (strip raw) = None
     → SubnetMap.read_coordinate py_float (Some raw) = Returned None)
  ∧ (∀ x, strip raw ≠ [] → strip raw ≠ lit "None"
          → py_float (strip raw) = Some x
          → SubnetMap.read_coordinate py_float (Some raw) = Returned (Some x))
  ∧ SubnetMap.read_coordinate py_float (Some (lit "")) = Returned None
  ∧ SubnetMap.read_coordinate py_float (Some (lit "None")) = Returned None
  ∧ (py_float (lit "abc") = None
     → SubnetMap.read_coordinate py_float (Some (lit "abc")) = Returned None)
  ∧ (∀ x, py_float (lit "37.5") = Some x
          → SubnetMap.read_coordinate py_float (Some (lit "37.5"))
            = Returned (Some x))
  ∧ SubnetMap.read_coordinate py_float (Some raw) = Returned (coerced py_float raw)
  ∧ (∀ row other,
       Csv.get row "gps_latitude" "" = Some raw →
       Csv.get row "gps_longitude" "" = Some other →
       ∃ n, SubnetMap.read_row py_float row = Returned n
            ∧ Returned (SubnetMap.latitude n)
              = SubnetMap.read_coordinate py_float (Some raw)
            ∧ Returned (SubnetMap.longitude n)
              = SubnetMap.read_coordinate py_float (Some other)
            ∧ SubnetMap.latitude n = coerced py_float raw
            ∧ SubnetMap.longitude n = coerced py_float other)
  ∧ (∀ csv_file n,
       n ∈ (SubnetMap.read_subnet_data py_float csv_file).2 →
       ∃ row lat lon,
         row ∈ Csv.DictReader csv_file
         ∧ SubnetMap.read_row py_float row = Returned n
         ∧ Csv.get row "gps_latitude" "" = Some lat
         ∧ Csv.get row "gps_longitude" "" = Some lon
         ∧ SubnetMap.latitude n = coerced py_float lat
         ∧ SubnetMap.longitude n = coerced py_float lon)
  ∧ (∀ csv_file row lat lon,
       row ∈ Csv.DictReader csv_file →
       Csv.get row "gps_latitude" "" = Some lat →
       Csv.get row "gps_longitude" "" = Some lon →
       skip_warning py_float row = None
       ∧ ∃ n, n ∈ (SubnetMap.read_subnet_data py_float csv_file).2
              ∧ SubnetMap.read_row py_float row = Returned n
              ∧ SubnetMap.latitude n = coerced py_float lat
              ∧ SubnetMap.longitude n = coerced py_float lon)
  ∧ (∀ csv_file,
       (SubnetMap.read_subnet_data py_float csv_file).1
       = omap (skip_warning py_float) (Csv.DictReader csv_file)).
Proof.
  assert (∀ s, SubnetMap.read_coordinate py_float (Some s)
               = Returned (SubnetMap.coordinate py_float (strip s))) as Hread
    by reflexivity.
  split_and!.
  - eexists. apply Hread.
  - intros H. rewrite Hread, coordinate_equation. by rewrite bool_decide_true.
  - intros H. rewrite Hread, coordinate_equation.
    case_bool_decide; [done|by rewrite H].
  - intros x H1 H2 H. rewrite Hread, coordinate_equation.
    rewrite bool_decide_false by (intros [?|?]; contradiction). by rewrite H.
  - reflexivity.
  - reflexivity.
  - intros H. rewrite Hread, coordinate_equation.
    change (strip (lit "abc")) with (lit "abc").
    case_bool_decide; [done|by rewrite H].
  - intros x H. rewrite Hread, coordinate_equation.
    change (strip (lit "37.5")) with (lit "37.5").
    rewrite bool_decide_false by (intros [?|?]; discriminate). by rewrite H.
  - by rewrite Hread, coordinate_coerced.
  - intros row other Hlat Hlon.
    destruct (read_row_coordinates row raw other Hlat Hlon) as (n & Hn & Hla & Hlo).
    exists n. rewrite !Hread, !coordinate_coerced, Hla, Hlo. done.
  - intros csv_file n. rewrite map_loaded. cbn [snd].
    intros (row & Hrow & Hkept)%list_elem_of_omap.
    unfold kept_node in Hkept.
    destruct (SubnetMap.read_row py_float row) as [n'|e] eqn:Hn; [|done].
    injection Hkept as ->.
    destruct (read_row_Returned row n Hn) as (lat & lon & ? & ? & ? & ?).
    by exists row, lat, lon.
  - intros csv_file row lat lon Hrow Hlat Hlon.
    destruct (read_row_coordinates row lat lon Hlat Hlon) as (n & Hn & Hla & Hlo).
    split; [unfold skip_warning; by rewrite Hn|].
    exists n. split_and!; [|done..].
    rewrite map_loaded. cbn [snd]. apply list_elem_of_omap.
    exists row. split; [done|]. unfold kept_node. by rewrite Hn.
  - intros csv_file. by rewrite map_loaded.
Qed.
End coordinates.

Lemma coordinate_coercion_witness :
  SubnetMap.read_coordinate SubnetMap.decimal (Some (lit " 37.5 "))
  = Returned (Some (75 # 2)%Q).
Proof.
  destruct (coordinate_coercion SubnetMap.decimal (lit " 37.5 "))
    as (_ & _ & _ & H & _).
  apply H; vm_compute; [discriminate..|reflexivity].
Defined.

Example loaded_coordinates :
  (λ n, (SubnetMap.latitude n, SubnetMap.longitude n))
  <$> (SubnetMap.read_subnet_data SubnetMap.decimal
         [ [lit "node_id"; lit "gps_latitude"; lit "gps_longitude"];
           [lit "n1"; lit " 37.5 "; lit "-122"];
           [lit "n2"; lit "None"; lit "abc"];
           [lit "n3"; lit ""; lit "4"] ]).2
  = [ (Some (75 # 2)%Q, Some (-122 # 1)%Q); (None, None); (None, Some (4 # 1)%Q) ].
Proof. reflexivity. Qed.

(** ** The violation test at its sites *)

Lemma node_lines_equation (n : GeoSummary.node_info) :
  GeoSummary.node_lines n
  = [ lit "      " ++ GeoSummary.icon (GeoSummary.info_change_type n) ++ lit " "
      ++ GeoSummary.info_node_id n
      ++ (if decide (GeoSummary.info_city n = []) then []
          else lit " (" ++ GeoSummary.info_city n ++ lit ")")
      ++ (if decide (in_violation (GeoSummary.info_violations n))
          then [32; 0x26A0; 0xFE0F; 32]%N else []) ]
    ++ (if decide (in_violation (GeoSummary.info_violations n))
        then [ lit "         " ++ [0x2514; 0x2500]%N ++ lit " Violations: "
               ++ fmt (GeoSummary.info_violations n) ]
        else []).
Proof.
  unfold GeoSummary.node_lines, GeoSummary.violation_marker.
  pose proof (in_violation_test (GeoSummary.info_violations n)) as Htest.
  assert (truthy (Some (GeoSummary.info_city n))
          = if decide (GeoSummary.info_city n = []) then false else true) as ->.
  { by destruct (GeoSummary.info_city n). }
  destruct (decide (GeoSummary.info_city n = []));
    destruct (decide (in_violation (GeoSummary.info_violations n))) as [Hv|Hv].
  - apply Htest in Hv. apply Is_true_eq_true in Hv. by rewrite Hv.
  - rewrite <- Htest in Hv. apply Is_true_false in Hv. by rewrite Hv.
  - apply Htest in Hv. apply Is_true_eq_true in Hv. by rewrite Hv.
  - rewrite <- Htest in Hv. apply Is_true_false in Hv. by rewrite Hv.
Qed.

Lemma members_in_violation (c : str) (nodes : list GeoSummary.node) :
  length (filter (λ i, in_violation (GeoSummary.info_violations i))
                 (members country_of node_info_of c nodes))
  = length (filter (λ n, country_of n = c
                         ∧ in_violation (GeoSummary.constraint_violation n)) nodes).
Proof.
  unfold members. induction nodes as [|n nodes IH]; [done|].
  rewrite !filter_cons.
  destruct (decide (country_of n = c)) as [Hc|Hc].
  - rewrite fmap_cons, filter_cons.
    change (GeoSummary.info_violations (node_info_of n))
      with (GeoSummary.constraint_violation n).
    destruct (decide (in_violation (GeoSummary.constraint_violation n))) as [Hv|Hv].
    + rewrite decide_True by done. simpl. by rewrite IH.
    + rewrite decide_False by tauto. exact IH.
  - rewrite decide_False by tauto. exact IH.
Qed.

Section violation_sites.
Context {float : Type}.

(** C2.  At each of the four places a node counts as in violation
    exactly when its [constraint_violation] is a non-empty string other
    than the two sentinels, whatever its other fields are.  The change
    summary prints the number of these nodes, on its line of violations,
    when there are any; the line of a country prints the number of them
    among the nodes of the country; the line of a node in the regional
    breakdown carries the warning sign, and is followed by the text of
    the violation, exactly for them; and the panel of the map counts
    them.  These lines are in the report that is printed. *)
Theorem in_violation_everywhere :
  (∀ nodes,
     GeoSummary.violation_count nodes
     = length (filter (λ n, in_violation (GeoSummary.constraint_violation n)) nodes))
  ∧ (∀ country_nodes,
       GeoSummary.violation_nodes country_nodes
       = filter (λ n, in_violation (GeoSummary.info_violations n)) country_nodes)
  ∧ (∀ n, GeoSummary.violation_marker n ≠ []
          ↔ in_violation (GeoSummary.info_violations n))
  ∧ (∀ (nodes : list (SubnetMap.node_data float)) subnet_id,
       SubnetMap.panel_violations (SubnetMap.generate_html_map nodes subnet_id)
       = length (filter (λ n, in_violation (SubnetMap.constraint_violation n)) nodes))
  ∧ (∀ n m : GeoSummary.node,
       GeoSummary.constraint_violation n = GeoSummary.constraint_violation m
       → GeoSummary.violation_count [n] = GeoSummary.violation_count [m])
  ∧ (∀ nodes,
       let count :=
         length (filter (λ n, in_violation (GeoSummary.constraint_violation n)) nodes) in
       GeoSummary.change_summary_lines nodes
       = [ [0x1F4CA%N] ++ lit " CHANGE SUMMARY:" ]
         ++ (GeoSummary.change_line <$> Counter (GeoSummary.change_type <$> nodes))
         ++ (if decide (0 < count)
             then [ lit "  " ++ [0x1F7E1%N] ++ lit " VIOLATIONS: " ++ str_of_nat count
                    ++ lit " nodes" ]
             else [])
         ++ [ [] ])
  ∧ (∀ country country_nodes,
       let violating :=
         filter (λ n, in_violation (GeoSummary.info_violations n)) country_nodes in
       let change_breakdown :=
         Counter (GeoSummary.info_change_type <$> country_nodes) in
       let summary :=
         lit "  " ++ country ++ lit ": " ++ str_of_nat (length country_nodes)
         ++ lit " nodes" in
       GeoSummary.country_entry country country_nodes
       = (country, length country_nodes,
          if decide (1 < length change_breakdown ∨ 0 < length violating)
          then summary ++ lit " ("
               ++ join (lit ", ")
                    ((GeoSummary.country_detail
                        <$> filter (λ entry, 0 < entry.2) change_breakdown)
                     ++ (if decide (0 < length violating)
                         then [ [0x1F7E1%N] ++ str_of_nat (length violating)
                                ++ lit " violations" ]
                         else []))
               ++ lit ")"
          else summary))
  ∧ (∀ n,
       GeoSummary.node_lines n
       = [ lit "      " ++ GeoSummary.icon (GeoSummary.info_change_type n) ++ lit " "
           ++ GeoSummary.info_node_id n
           ++ (if decide (GeoSummary.info_city n = []) then []
               else lit " (" ++ GeoSummary.info_city n ++ lit ")")
           ++ (if decide (in_violation (GeoSummary.info_violations n))
               then [32; 0x26A0; 0xFE0F; 32]%N else []) ]
         ++ (if decide (in_violation (GeoSummary.info_violations n))
             then [ lit "         " ++ [0x2514; 0x2500]%N ++ lit " Violations: "
                    ++ fmt (GeoSummary.info_violations n) ]
             else []))
  ∧ (∀ nodes subnet_id g,
       GeoSummary.analyze_geographic_distribution nodes = Returned g →
       let printed := (GeoSummary.print_geographic_summary nodes subnet_id).1 in
       printed
       = GeoSummary.header_lines nodes subnet_id
         ++ GeoSummary.change_summary_lines nodes
         ++ GeoSummary.country_lines g.1.2
         ++ GeoSummary.regional_lines g.1.1
         ++ GeoSummary.constraint_lines nodes
         ++ GeoSummary.footer_lines
       ∧ (∀ c, c ≠ [] → c ∈ country_of <$> nodes →
            let country_nodes := members country_of node_info_of c nodes in
            (GeoSummary.country_entry c country_nodes).2 ∈ printed
            ∧ length (filter (λ i, in_violation (GeoSummary.info_violations i))
                             country_nodes)
              = length (filter (λ n, country_of n = c
                                     ∧ in_violation (GeoSummary.constraint_violation n))
                               nodes))
       ∧ (∀ n line, n ∈ nodes → region_key_of n ≠ lit "," →
            line ∈ GeoSummary.node_lines (node_info_of n) → line ∈ printed)).
Proof.
  split_and!.
  - apply violation_count_spec.
  - intros ns. apply list_filter_iff. intros n. apply in_violation_test.
  - intros n. unfold GeoSummary.violation_marker.
    rewrite <- in_violation_test.
    destruct (truthy _ && bool_decide _); simpl; split; done.
  - intros nodes sid. simpl. f_equal.
    apply list_filter_iff. intros n. apply in_violation_test.
  - intros n m Heq. unfold GeoSummary.violation_count.
    rewrite !filter_cons, !filter_nil, Heq. by case_decide.
  - intros nodes. apply change_summary_equation.
  - intros country country_nodes. apply country_entry_equation.
  - apply node_lines_equation.
  - intros nodes subnet_id g Hg printed. unfold printed.
    unfold GeoSummary.print_geographic_summary. rewrite Hg. cbn [fst].
    apply analyze_Returned in Hg as ->. cbn [fst snd GeoSummary.report].
    split_and!.
    + reflexivity.
    + intros c Hc Hin. split; [|apply members_in_violation].
      set (country_nodes := members country_of node_info_of c nodes).
      rewrite !elem_of_app. right. right. left.
      unfold GeoSummary.country_lines. rewrite !elem_of_app. right. left.
      apply list_elem_of_fmap. exists (GeoSummary.country_entry c country_nodes).
      split; [done|]. unfold GeoSummary.sorted_country_summary.
      rewrite (sorted_perm (λ e : str * nat * str, e.1.2)).
      apply country_summary_elem. exists country_nodes.
      split_and!; [|done..].
      apply grouped_elem. split; [done|].
      apply list_elem_of_fmap in Hin as (n & -> & Hn).
      destruct (grouped_member country_of node_info_of nodes n Hn) as [_ Hmem].
      intros Hnil. unfold country_nodes in Hnil. rewrite Hnil in Hmem.
      by apply elem_of_nil in Hmem.
    + intros n line Hn Hkey Hline.
      rewrite !elem_of_app. right. right. right. left.
      unfold GeoSummary.regional_lines.
      apply elem_of_app. right. apply elem_of_concat.
      destruct (grouped_member region_key_of node_info_of nodes n Hn) as [Hgroup Hmember].
      exists (GeoSummary.region_lines
                (region_key_of n,
                 members region_key_of node_info_of (region_key_of n) nodes)).
      split.
      * apply (region_lines_member _ _ (node_info_of n)); try done.
        apply region_key_truthy.
      * apply list_elem_of_fmap. eexists. split; [done|].
        unfold GeoSummary.sorted_items. by rewrite sorted_Permutation.
Qed.
End violation_sites.

Lemma in_violation_everywhere_witness :
  GeoSummary.violation_count
    [GeoSummary.Node None None None None None (Some (lit "dc limit")) None]
  = GeoSummary.violation_count
      [GeoSummary.Node (Some (lit "n1")) None None None None (Some (lit "dc limit")) None].
Proof.
  destruct (in_violation_everywhere (float := Q)) as (_ & _ & _ & _ & H & _).
  apply H. reflexivity.
Defined.
